(** * Relax VM wrapper ([python/tvm/relax/vm.py]): device and allocator setup,
      executable persistence.

    The development embeds [VirtualMachine._setup_device] and its caller
    [VirtualMachine.__init__] as state-passing functions over a small Python
    store, and the persistence wrappers [Executable.save_to_file] and
    [load_exec_from_file] over a file system of byte strings. *)

From Stdlib Require Import ZArith NArith Lia.
From Stdlib.Strings Require Import Byte.
From stdpp Require Import base option list strings gmap.

Set Default Proof Using "Type".

Local Open Scope string_scope.
Local Open Scope Z_scope.
Local Open Scope list_scope.

(** ** Python values *)

(** [tvm.runtime.Device], declared outside this file: a ctypes structure with
    the two integer fields the wrapper reads.  Two devices are equal, and hit
    the same dictionary key, exactly when both fields agree. *)
Record Device : Type := mkDevice { device_type : Z; device_id : Z }.

#[global] Instance Device_eq_dec : EqDecision Device.
Proof. solve_decision. Defined.

(** Store locations of mutable or compound objects. *)
Abbreviation loc := nat (only parsing).

(** The classes [_setup_device] tells apart with [isinstance], [is None] and
    attribute access.  [cls_other] names any class the wrapper has no case
    for (executables, native modules, ...); its objects have neither a
    [device_type] nor an [append] attribute. *)
Inductive pyclass : Type :=
| cls_NoneType
| cls_int
| cls_str
| cls_Device
| cls_list
| cls_tuple
| cls_dict
| cls_other (name : string).

(** A Python value: immediate data, or a reference into the store.  Lists,
    tuples and dictionaries are always held by reference, so that two names
    bound to one list see each other's updates. *)
Inductive pyobj : Type :=
| PNone
| PInt (z : Z)
| PStr (s : string)
| PDevice (d : Device)
| PRef (l : loc)
| PObject (name : string) (ident : nat).

(** Store objects.  A dictionary keeps its items in insertion order. *)
Inductive hobj : Type :=
| HList (items : list pyobj)
| HTuple (items : list pyobj)
| HDict (entries : list (pyobj * pyobj)).

Inductive exn : Type :=
| TypeError (msg : string)
| AssertionError
| AttributeError (cls : pyclass) (attr : string)
| ZeroDivisionError.

(** Calls that cross into the native runtime ([_ffi_api]). *)
Inductive ffi_call : Type :=
| FFI_VirtualMachine (exec mod_ : pyobj)
| FFI_VirtualMachineInit (module : pyobj) (init_args : list pyobj).

(** Interpreter state: the object store and the native calls made so far. *)
Record state : Type := mkState { heap : list hobj; ffi_log : list ffi_call }.

(** ** A state and exception monad *)

Inductive result (A : Type) : Type :=
| Ok (a : A)
| Raise (e : exn).
Arguments Ok {A} a.
Arguments Raise {A} e.

Definition M (A : Type) : Type := state → result A * state.

Definition ret {A : Type} (a : A) : M A := λ σ, (Ok a, σ).
Definition bind {A B : Type} (m : M A) (f : A → M B) : M B := λ σ,
  match m σ with
  | (Ok a, σ') => f a σ'
  | (Raise e, σ') => (Raise e, σ')
  end.

Notation "'let*' x := c 'in' k" := (bind c (λ x, k))
  (at level 10, x pattern, c at level 100, k at level 200).

Definition raise {A : Type} (e : exn) : M A := λ σ, (Raise e, σ).
Definition get_heap : M (list hobj) := λ σ, (Ok (heap σ), σ).
Definition get_ffi_log : M (list ffi_call) := λ σ, (Ok (ffi_log σ), σ).
Definition put_heap (h : list hobj) : M unit :=
  λ σ, (Ok tt, mkState h (ffi_log σ)).
Definition ffi (c : ffi_call) : M unit :=
  λ σ, (Ok tt, mkState (heap σ) (ffi_log σ ++ [c])).

(** ** Python primitives used by the wrapper *)

(** [type(v)]. A reference that leaves the store stands for an object of a
    class outside the model. *)
Definition type_of (h : list hobj) (v : pyobj) : pyclass :=
  match v with
  | PNone => cls_NoneType
  | PInt _ => cls_int
  | PStr _ => cls_str
  | PDevice _ => cls_Device
  | PRef l =>
      match h !! l with
      | Some (HList _) => cls_list
      | Some (HTuple _) => cls_tuple
      | Some (HDict _) => cls_dict
      | None => cls_other "object"
      end
  | PObject name _ => cls_other name
  end.

Definition class_name (c : pyclass) : string :=
  match c with
  | cls_NoneType => "NoneType"
  | cls_int => "int"
  | cls_str => "str"
  | cls_Device => "tvm._ffi.runtime_ctypes.Device"
  | cls_list => "list"
  | cls_tuple => "tuple"
  | cls_dict => "dict"
  | cls_other name => name
  end.

(** [format(type(v))]. *)
Definition format_type (c : pyclass) : string :=
  "<class '" +:+ class_name c +:+ "'>".

Definition is_list_or_tuple (c : pyclass) : bool :=
  match c with cls_list | cls_tuple => true | _ => false end.

Definition is_Device (c : pyclass) : bool :=
  match c with cls_Device => true | _ => false end.

(** [[x]]: a fresh list object. *)
Definition alloc_list (items : list pyobj) : M pyobj := λ σ,
  (Ok (PRef (length (heap σ))), mkState (heap σ ++ [HList items]) (ffi_log σ)).

(** The elements a [for] or a generator visits when it iterates [v]. *)
Definition iter (v : pyobj) : M (list pyobj) :=
  let* h := get_heap in
  match v with
  | PRef l =>
      match h !! l with
      | Some (HList items) | Some (HTuple items) => ret items
      | Some (HDict entries) => ret (fst <$> entries)
      | None => raise (TypeError "object is not iterable")
      end
  | _ => raise (TypeError "object is not iterable")
  end.

(** [v.append(x)]: defined by [list] alone, in place. *)
Definition append (v x : pyobj) : M unit :=
  let* h := get_heap in
  match v with
  | PRef l =>
      match h !! l with
      | Some (HList items) => put_heap (<[l := HList (items ++ [x])]> h)
      | _ => raise (AttributeError (type_of h v) "append")
      end
  | _ => raise (AttributeError (type_of h v) "append")
  end.

(** [a % b] on Python integers: floored, with the sign of the divisor. *)
Definition py_mod (a b : Z) : M Z :=
  if b =? 0 then raise ZeroDivisionError else ret (a mod b).

(** [k in d] and [d[k]] for a device key [k]: the entry whose key is a device
    equal to [k]. *)
Definition key_is (k : Device) (e : pyobj * pyobj) : bool :=
  match e.1 with
  | PDevice d => bool_decide (d = k)
  | _ => false
  end.

Definition dict_get (entries : list (pyobj * pyobj)) (k : Device)
  : option pyobj :=
  snd <$> List.find (key_is k) entries.

(** ** Constants and messages of [VirtualMachine] *)

Definition NAIVE_ALLOCATOR : Z := 1.
Definition POOLED_ALLOCATOR : Z := 2.

Definition dev_expected_msg : string :=
  "dev is expected to be Device or " +:+ String.concat "" (replicate 32 " ")
  +:+ "List[Device]".

Definition memory_cfg_expected_msg (c : pyclass) : string :=
  "memory_cfg is expected be string or dictionary, " +:+
  ("but received " +:+ format_type c).

(** ** Executables and their byte encoding *)

(** Modelled from the spec: the native [Executable] is not part of this
    file.  An instruction record is an opcode with register operands and
    immediate operands; a constant is a scalar, a shape or embedded tensor
    data; the function table maps a unique name to entry offset,
    register-frame size and parameter count. *)
Record Instruction : Type :=
  mkInstruction { opcode : N; registers : list N; immediates : list Z }.

Inductive Constant : Type :=
| Scalar (value : Z)
| Shape (dims : list N)
| Tensor (data : list byte).

Record FunctionInfo : Type :=
  mkFunctionInfo { entry : N; frame_size : N; param_count : N }.

Record Executable : Type :=
  mkExecutable {
    instructions : list Instruction;
    constants : list Constant;
    functions : gmap string FunctionInfo }.

Inductive codec_error : Type :=
| MalformedExecutable
| UnsupportedVersion
| IOError.

(** A decoder reads a value off the front of the bytes and returns what is
    left. *)
Definition decoder (A : Type) : Type :=
  list byte → codec_error + A * list byte.

Definition dec_ret {A : Type} (a : A) : decoder A := λ bs, inr (a, bs).
Definition dec_fail {A : Type} (e : codec_error) : decoder A := λ _, inl e.
Definition dec_bind {A B : Type} (d : decoder A) (k : A → decoder B)
  : decoder B := λ bs,
  match d bs with
  | inl e => inl e
  | inr (a, rest) => k a rest
  end.

Notation "'read' x := d 'in' k" := (dec_bind d (λ x, k))
  (at level 10, x pattern, d at level 100, k at level 200).

(** Modelled from the spec: the byte layout below the record level is not
    given there.  Every integer field is eight bytes, least significant
    first; signed fields are in two's complement; a sequence inside a record
    is its length followed by its elements. *)
Definition byte_of (v : N) : byte := default x00 (Byte.of_N v).

Fixpoint le_bytes (n : nat) (v : N) : list byte :=
  match n with
  | O => []
  | S n' => byte_of (v mod 256) :: le_bytes n' (v / 256)
  end.

Fixpoint le_value (bs : list byte) : N :=
  match bs with
  | [] => 0
  | b :: bs' => Byte.to_N b + 256 * le_value bs'
  end.

Definition put_u64 (v : N) : list byte := le_bytes 8 v.

Definition get_bytes (n : nat) : decoder (list byte) := λ bs,
  if decide (n ≤ length bs)%nat then inr (take n bs, drop n bs)
  else inl MalformedExecutable.

Definition get_u64 : decoder N :=
  read bs := get_bytes 8 in dec_ret (le_value bs).

Definition put_i64 (z : Z) : list byte := put_u64 (Z.to_N (z mod 2 ^ 64)).

Definition get_i64 : decoder Z :=
  read v := get_u64 in
  dec_ret (if (v <? 2 ^ 63)%N then Z.of_N v else Z.of_N v - 2 ^ 64)%Z.

Fixpoint get_many {A : Type} (d : decoder A) (n : nat) : decoder (list A) :=
  match n with
  | O => dec_ret []
  | S n' => read a := d in read l := get_many d n' in dec_ret (a :: l)
  end.

Definition put_seq {A : Type} (put : A → list byte) (l : list A)
  : list byte :=
  put_u64 (N.of_nat (length l)) ++ flat_map put l.

Definition get_seq {A : Type} (d : decoder A) : decoder (list A) :=
  read n := get_u64 in get_many d (N.to_nat n).

Definition put_instruction (i : Instruction) : list byte :=
  put_u64 (opcode i) ++ put_seq put_u64 (registers i) ++
  put_seq put_i64 (immediates i).

Definition get_instruction : decoder Instruction :=
  read op := get_u64 in
  read regs := get_seq get_u64 in
  read imms := get_seq get_i64 in
  dec_ret (mkInstruction op regs imms).

Definition put_constant (c : Constant) : list byte :=
  match c with
  | Scalar value => put_u64 0 ++ put_i64 value
  | Shape dims => put_u64 1 ++ put_seq put_u64 dims
  | Tensor data => put_u64 2 ++ put_u64 (N.of_nat (length data)) ++ data
  end.

Definition get_constant : decoder Constant :=
  read tag := get_u64 in
  match tag with
  | 0%N => read value := get_i64 in dec_ret (Scalar value)
  | 1%N => read dims := get_seq get_u64 in dec_ret (Shape dims)
  | 2%N =>
      read n := get_u64 in
      read data := get_bytes (N.to_nat n) in dec_ret (Tensor data)
  | _ => dec_fail MalformedExecutable
  end.

Definition put_function (f : string * FunctionInfo) : list byte :=
  let name := String.list_byte_of_string f.1 in
  put_u64 (N.of_nat (length name)) ++ name ++
  put_u64 (entry f.2) ++ put_u64 (frame_size f.2) ++
  put_u64 (param_count f.2).

Definition get_function : decoder (string * FunctionInfo) :=
  read n := get_u64 in
  read name := get_bytes (N.to_nat n) in
  read off := get_u64 in
  read frame := get_u64 in
  read params := get_u64 in
  dec_ret (String.string_of_list_byte name, mkFunctionInfo off frame params).

(** The function table runs to the end of the buffer; [fuel] bounds the
    number of records. *)
Fixpoint get_functions (fuel : nat) (bs : list byte)
  : codec_error + list (string * FunctionInfo) :=
  match bs, fuel with
  | [], _ => inr []
  | _, O => inl MalformedExecutable
  | _, S fuel' =>
      match get_function bs with
      | inl e => inl e
      | inr (f, rest) =>
          match get_functions fuel' rest with
          | inl e => inl e
          | inr fs => inr (f :: fs)
          end
      end
  end.

(** [d] reads back what [put] wrote for [a], and leaves what follows. *)
Definition decodes {A : Type} (put : A → list byte) (d : decoder A) (a : A)
  : Prop :=
  ∀ rest, d (put a ++ rest) = inr (a, rest).

(** ** Values for the examples *)

(** The examples run with session mask 128 and host CPU type 1. *)
Definition host_cpu : Device := mkDevice 1 0.
Definition gpu0 : Device := mkDevice 2 0.
Definition remote_cpu : Device := mkDevice 129 0.
Definition vm_module : pyobj := PObject "tvm.runtime.module.Module" 0.

(** A store with, in this order: the list [[gpu0]], the tuple [(gpu0,)],
    the dictionary [{gpu0: "bogus"}], the list [[42]] and the list
    [[gpu0, remote_cpu]]. *)
Definition example_state : state :=
  mkState
    [HList [PDevice gpu0];
     HTuple [PDevice gpu0];
     HDict [(PDevice gpu0, PStr "bogus")];
     HList [PInt 42];
     HList [PDevice gpu0; PDevice remote_cpu]]
    [].

(** A second store: the list [[host_cpu, "gpu"]] and the empty list. *)
Definition example_state2 : state :=
  mkState [HList [PDevice host_cpu; PStr "gpu"]; HList []] [].

(** An executable with the function [main] at offset 0, one instruction and
    the constant 42; in the examples the first register operand of opcode 1
    is a constant index. *)
Definition example_constant_refs (i : Instruction) : list N :=
  match opcode i with
  | 1%N => take 1 (registers i)
  | _ => []
  end.

Definition example_executable : Executable :=
  mkExecutable [mkInstruction 1 [0%N] []] [Scalar 42]
    {["main" := mkFunctionInfo 0 1 0]}.

Section Relax.

(** The session mask of [tvm.rpc.base] and the device [tvm.cpu()] returns;
    both are declared outside this file. *)
Variable RPC_SESS_MASK : Z.
Variable tvm_cpu : Device.

(** Modelled from the spec: the format version the codec writes and accepts,
    the operands of an instruction that are constant indices and jump
    targets, and the paths a file can be written at; the spec fixes none of
    them. *)
Variable VERSION : N.
Variable constant_refs : Instruction → list N.
Variable jump_targets : Instruction → list N.
Variable writable : string → bool.

(** ** class VirtualMachine: device and allocator setup *)

(** [device_type % RPC_SESS_MASK] *)
Definition normalize (ty : Z) : M Z := py_mod ty RPC_SESS_MASK.

(** [any(c.device_type % RPC_SESS_MASK == tvm.cpu().device_type for c in devs)]:
    stops at the first element that compares equal. *)
Fixpoint any_is_cpu (items : list pyobj) : M bool :=
  match items with
  | [] => ret false
  | c :: rest =>
      let* h := get_heap in
      match c with
      | PDevice d =>
          let* n := normalize (device_type d) in
          if n =? device_type tvm_cpu then ret true else any_is_cpu rest
      | _ => raise (AttributeError (type_of h c) "device_type")
      end
  end.

(** The branch on [memory_cfg]: the default allocator type and the
    dictionary the loop consults.  The [assert] is taken as executed. *)
Definition resolve_memory_cfg (memory_cfg : pyobj)
  : M (pyobj * list (pyobj * pyobj)) :=
  let* h := get_heap in
  let default_alloc_type := PInt POOLED_ALLOCATOR in
  match memory_cfg with
  | PNone => ret (default_alloc_type, [])
  | PStr s =>
      if bool_decide (s ∈ ["naive"; "pooled"]) then
        if bool_decide (s = "naive")
        then ret (PInt NAIVE_ALLOCATOR, [])
        else ret (default_alloc_type, [])
      else raise AssertionError
  | PRef l =>
      match h !! l with
      | Some (HDict entries) => ret (default_alloc_type, entries)
      | _ => raise (TypeError (memory_cfg_expected_msg (type_of h memory_cfg)))
      end
  | _ => raise (TypeError (memory_cfg_expected_msg (type_of h memory_cfg)))
  end.

(** The [for device in devs] loop; [init_args] is the list built so far. *)
Fixpoint init_args_loop (default_alloc_type : pyobj)
    (memory_cfg : list (pyobj * pyobj)) (items init_args : list pyobj)
  : M (list pyobj) :=
  match items with
  | [] => ret init_args
  | device :: rest =>
      let* h := get_heap in
      match device with
      | PDevice d =>
          let* n := normalize (device_type d) in
          let init_args := init_args ++ [PInt n] in
          let init_args := init_args ++ [PInt (device_id d)] in
          let alloc_type :=
            match dict_get memory_cfg d with
            | Some v => v
            | None => default_alloc_type
            end in
          let init_args := init_args ++ [alloc_type] in
          init_args_loop default_alloc_type memory_cfg rest init_args
      | _ => raise (AttributeError (type_of h device) "device_type")
      end
  end.

(** [VirtualMachine._setup_device(self, dev, memory_cfg)], with [self.module]
    for [self].  [devs] is [dev] itself when [dev] is a list or a tuple: the
    same object, not a copy. *)
Definition _setup_device (self_module dev memory_cfg : pyobj) : M unit :=
  let* h := get_heap in
  (* devs = dev; if not isinstance(dev, (list, tuple)): ... devs = [dev] *)
  let* devs := (if is_list_or_tuple (type_of h dev) then ret dev
                else if is_Device (type_of h dev)
                     then alloc_list [dev]
                     else raise (TypeError dev_expected_msg)) in
  (* if not any(...): devs.append(tvm.cpu()) *)
  let* items := iter devs in
  let* found := any_is_cpu items in
  let* _ := (if found then ret tt else append devs (PDevice tvm_cpu)) in
  (* default_alloc_type and the branch on memory_cfg *)
  let* (default_alloc_type, cfg) := resolve_memory_cfg memory_cfg in
  (* init_args = []; for device in devs: ... *)
  let* items := iter devs in
  let* init_args := init_args_loop default_alloc_type cfg items [] in
  (* _ffi_api.VirtualMachineInit(self.module, *init_args) *)
  ffi (FFI_VirtualMachineInit self_module init_args).

(** [VirtualMachine(exec, device, memory_cfg, mod)]; the value is the
    [module] attribute of the new object, an opaque handle numbered by the
    native calls made before it. *)
Definition __init__ (exec device memory_cfg mod_ : pyobj) : M pyobj :=
  let* log := get_ffi_log in
  let module := PObject "tvm.runtime.module.Module" (length log) in
  let* _ := ffi (FFI_VirtualMachine exec mod_) in
  let* _ := _setup_device module device memory_cfg in
  ret module.

(** ** The registry the native initializer builds *)

(** Modelled from the spec: the native [VirtualMachineInit] is not part of
    this file.  The spec's binding entry is a tuple (virtual slot, physical
    device type, physical device id, allocator strategy), one per device and
    numbered 0, 1, 2, ... by position; the wrapper hands the three fields of
    each device over as three consecutive arguments. *)
Record binding : Type :=
  mkBinding { slot : nat; phys_type : pyobj; phys_id : pyobj; strategy : pyobj }.

Fixpoint bindings_from (next : nat) (init_args : list pyobj) : list binding :=
  match init_args with
  | ty :: id :: alloc :: rest =>
      mkBinding next ty id alloc :: bindings_from (S next) rest
  | _ => []
  end.

Definition registry (init_args : list pyobj) : list binding :=
  bindings_from 0 init_args.

(** ** Vocabulary of the statements *)

(** A device of CPU class: its type equals the host CPU type once the session
    encoding is removed. *)
Definition is_cpu_class (d : Device) : bool :=
  device_type d mod RPC_SESS_MASK =? device_type tvm_cpu.

Definition has_cpu (ds : list Device) : bool := existsb is_cpu_class ds.

(** The devices that get a binding: the caller's, then the CPU when none of
    the caller's is of CPU class. *)
Definition bound_devices (ds : list Device) : list Device :=
  if has_cpu ds then ds else ds ++ [tvm_cpu].

(** The allocator the loop picks for [d]. *)
Definition alloc_for (default_alloc_type : pyobj)
    (cfg : list (pyobj * pyobj)) (d : Device) : pyobj :=
  default default_alloc_type (dict_get cfg d).

(** The three arguments one device contributes. *)
Definition entry_args (alloc : Device → pyobj) (d : Device) : list pyobj :=
  [PInt (device_type d mod RPC_SESS_MASK); PInt (device_id d); alloc d].

Definition args_of (alloc : Device → pyobj) (ds : list Device) : list pyobj :=
  flat_map (entry_args alloc) ds.

Definition binding_of (alloc : Device → pyobj) (i : nat) (d : Device)
  : binding :=
  mkBinding i (PInt (device_type d mod RPC_SESS_MASK)) (PInt (device_id d))
            (alloc d).

(** The device specifications on which the scan and the append complete:
    one device, a list of devices, or a tuple of devices that already holds
    one of CPU class.  [ds] lists the devices in the caller's order. *)
Inductive device_spec (h : list hobj) : pyobj → list Device → Prop :=
| spec_single d :
    device_spec h (PDevice d) [d]
| spec_list l ds :
    h !! l = Some (HList (PDevice <$> ds)) →
    device_spec h (PRef l) ds
| spec_tuple l ds :
    h !! l = Some (HTuple (PDevice <$> ds)) →
    has_cpu ds = true →
    device_spec h (PRef l) ds.

(** The store once the setup has passed the CPU check. *)
Definition heap_after (h : list hobj) (dev : pyobj) (ds : list Device)
  : list hobj :=
  match dev with
  | PRef l =>
      if has_cpu ds then h
      else <[l := HList ((PDevice <$> ds) ++ [PDevice tvm_cpu])]> h
  | _ => h ++ [HList (PDevice <$> bound_devices ds)]
  end.

(** The memory configurations the branch accepts, with the default allocator
    type and the dictionary they resolve to. *)
Inductive memory_cfg_spec (h : list hobj)
  : pyobj → pyobj → list (pyobj * pyobj) → Prop :=
| cfg_none :
    memory_cfg_spec h PNone (PInt POOLED_ALLOCATOR) []
| cfg_naive :
    memory_cfg_spec h (PStr "naive") (PInt NAIVE_ALLOCATOR) []
| cfg_pooled :
    memory_cfg_spec h (PStr "pooled") (PInt POOLED_ALLOCATOR) []
| cfg_dict l entries :
    h !! l = Some (HDict entries) →
    memory_cfg_spec h (PRef l) (PInt POOLED_ALLOCATOR) entries.

(** A memory configuration that is neither [None], a string nor a
    dictionary. *)
Definition bad_cfg_type (h : list hobj) (memory_cfg : pyobj) : Prop :=
  memory_cfg ≠ PNone ∧ type_of h memory_cfg ≠ cls_str ∧
  type_of h memory_cfg ≠ cls_dict.


(** What the setup does once [memory_cfg] has been looked at, on the store
    [h] the CPU check left. *)
Definition finish (self_module memory_cfg : pyobj) (ds : list Device)
    (h : list hobj) (log : list ffi_call) : result unit * state :=
  match resolve_memory_cfg memory_cfg (mkState h log) with
  | (Ok (default_alloc_type, cfg), _) =>
      (Ok tt,
       mkState h
         (log ++ [FFI_VirtualMachineInit self_module
                    (args_of (alloc_for default_alloc_type cfg)
                             (bound_devices ds))]))
  | (Raise e, _) => (Raise e, mkState h log)
  end.

(** A run that returns: the store it leaves, the one native call it makes,
    and the registry that call describes. *)
Definition completes (self_module dev memory_cfg : pyobj) (σ : state)
    (ds : list Device) (alloc : Device → pyobj) : Prop :=
  let init_args := args_of alloc (bound_devices ds) in
  _setup_device self_module dev memory_cfg σ =
    (Ok tt,
     mkState (heap_after (heap σ) dev ds)
       (ffi_log σ ++ [FFI_VirtualMachineInit self_module init_args])) ∧
  registry init_args = imap (binding_of alloc) (bound_devices ds).

(** The store after a run, seen from the caller: untouched, grown by a list
    that only the wrapper holds, or with the CPU device appended to the list
    the caller passed as [dev]. *)
Inductive store_effect (h : list hobj) (dev : pyobj) : list hobj → Prop :=
| effect_none :
    store_effect h dev h
| effect_fresh items :
    store_effect h dev (h ++ [HList items])
| effect_append l items :
    dev = PRef l →
    h !! l = Some (HList items) →
    store_effect h dev (<[l := HList (items ++ [PDevice tvm_cpu])]> h).

(** The native initializer is called once, last, and only by a run that
    does not raise. *)
Definition log_effect (self_module : pyobj) (log : list ffi_call)
    (r : result unit) (log' : list ffi_call) : Prop :=
  match r with
  | Ok _ => ∃ init_args,
      log' = log ++ [FFI_VirtualMachineInit self_module init_args]
  | Raise _ => log' = log
  end.

(** Modelled from the spec: decoding checks every index against the pool it
    points into (constants, function offsets, jump targets). *)
Definition instruction_in_bounds (n_instr n_const : N) (i : Instruction)
  : bool :=
  forallb (λ c, c <? n_const)%N (constant_refs i) &&
  forallb (λ t, t <? n_instr)%N (jump_targets i).

Definition references_in_bounds (instrs : list Instruction)
    (consts : list Constant) (funcs : list (string * FunctionInfo)) : bool :=
  let n_instr := N.of_nat (length instrs) in
  let n_const := N.of_nat (length consts) in
  forallb (instruction_in_bounds n_instr n_const) instrs &&
  forallb (λ f, entry f.2 <? n_instr)%N funcs.

(** Modelled from the spec: the stream is header (version, instruction
    count, constant count), then the instruction records, the constant
    records and the function table records. *)
Definition encode (e : Executable) : list byte :=
  put_u64 VERSION ++
  put_u64 (N.of_nat (length (instructions e))) ++
  put_u64 (N.of_nat (length (constants e))) ++
  flat_map put_instruction (instructions e) ++
  flat_map put_constant (constants e) ++
  flat_map put_function (map_to_list (functions e)).

Definition get_body : decoder (list Instruction * list Constant) :=
  read version := get_u64 in
  if negb (version =? VERSION)%N then dec_fail UnsupportedVersion else
  read n_instr := get_u64 in
  read n_const := get_u64 in
  read instrs := get_many get_instruction (N.to_nat n_instr) in
  read consts := get_many get_constant (N.to_nat n_const) in
  dec_ret (instrs, consts).

Definition decode (bs : list byte) : codec_error + Executable :=
  match get_body bs with
  | inl e => inl e
  | inr ((instrs, consts), rest) =>
      match get_functions (length rest) rest with
      | inl e => inl e
      | inr funcs =>
          if bool_decide (NoDup funcs.*1) &&
             references_in_bounds instrs consts funcs
          then inr (mkExecutable instrs consts (list_to_map funcs))
          else inl MalformedExecutable
      end
  end.

(** The executables the format can hold: every field fits its eight bytes
    and every index is in bounds. *)
Definition u64 (v : N) : bool := (v <? 2 ^ 64)%N.
Definition i64 (z : Z) : bool := (- 2 ^ 63 <=? z) && (z <? 2 ^ 63).
Definition len64 {A : Type} (l : list A) : bool := u64 (N.of_nat (length l)).

Definition instruction_fits (i : Instruction) : bool :=
  u64 (opcode i) &&
  (len64 (registers i) && forallb u64 (registers i)) &&
  (len64 (immediates i) && forallb i64 (immediates i)).

Definition constant_fits (c : Constant) : bool :=
  match c with
  | Scalar value => i64 value
  | Shape dims => len64 dims && forallb u64 dims
  | Tensor data => len64 data
  end.

Definition function_fits (f : string * FunctionInfo) : bool :=
  len64 (String.list_byte_of_string f.1) &&
  u64 (entry f.2) && u64 (frame_size f.2) && u64 (param_count f.2).

Definition valid_executable (e : Executable) : bool :=
  u64 VERSION &&
  len64 (instructions e) && len64 (constants e) &&
  forallb instruction_fits (instructions e) &&
  forallb constant_fits (constants e) &&
  forallb function_fits (map_to_list (functions e)) &&
  references_in_bounds (instructions e) (constants e)
    (map_to_list (functions e)).

(** ** Persistence *)

(** Modelled from the spec: the native [ExecutableSaveToFile] and
    [ExecutableLoadFromFile] wrap the codec; a file that cannot be written
    or read is an [IOError]. *)
Definition ExecutableSaveToFile (e : Executable) (file_name : string)
    (fs : gmap string (list byte)) : codec_error + gmap string (list byte) :=
  if writable file_name then inr (<[file_name := encode e]> fs)
  else inl IOError.

Definition ExecutableLoadFromFile (file_name : string)
    (fs : gmap string (list byte)) : codec_error + Executable :=
  match fs !! file_name with
  | Some bs => decode bs
  | None => inl IOError
  end.

(** [Executable.save_to_file] and [load_exec_from_file] of the wrapper. *)
Definition save_to_file (self : Executable) (file_name : string) :=
  ExecutableSaveToFile self file_name.

Definition load_exec_from_file (file_name : string) :=
  ExecutableLoadFromFile file_name.

(** ** Running the monad *)

Lemma bind_Ok {A B : Type} (m : M A) (f : A → M B) σ a σ' :
  m σ = (Ok a, σ') → bind m f σ = f a σ'.
Proof. intros H. unfold bind. by rewrite H. Qed.

Lemma bind_Raise {A B : Type} (m : M A) (f : A → M B) σ e σ' :
  m σ = (Raise e, σ') → bind m f σ = (Raise e, σ').
Proof. intros H. unfold bind. by rewrite H. Qed.

Lemma bind_inv {A B : Type} (m : M A) (f : A → M B) σ r σ2 :
  bind m f σ = (r, σ2) →
  (∃ a σ1, m σ = (Ok a, σ1) ∧ f a σ1 = (r, σ2)) ∨
  (∃ e, m σ = (Raise e, σ2) ∧ r = Raise e).
Proof.
  unfold bind. destruct (m σ) as [[a|e] σ1]; intros H.
  - left. eauto.
  - right. exists e. by inversion H.
Qed.

Lemma py_mod_nonzero a b σ : b ≠ 0 → py_mod a b σ = (Ok (a mod b), σ).
Proof.
  intros Hb. unfold py_mod. by destruct (Z.eqb_spec b 0).
Qed.

Lemma normalize_nonzero ty σ :
  RPC_SESS_MASK ≠ 0 → normalize ty σ = (Ok (ty mod RPC_SESS_MASK), σ).
Proof. apply py_mod_nonzero. Qed.

(** Reading a device's type never touches the state. *)
Lemma normalize_state ty σ r σ' : normalize ty σ = (r, σ') → σ' = σ.
Proof.
  unfold normalize, py_mod. destruct (RPC_SESS_MASK =? 0); by inversion 1.
Qed.

Lemma any_is_cpu_state items σ r σ' :
  any_is_cpu items σ = (r, σ') → σ' = σ.
Proof.
  induction items as [|c rest IH]; simpl; [by inversion 1|].
  unfold bind at 1, get_heap. simpl.
  destruct c; try by inversion 1.
  intros H. apply bind_inv in H as [(n & σ1 & Hn & H)|(e & Hn & _)].
  - apply normalize_state in Hn as ->.
    destruct (n =? device_type tvm_cpu); [by inversion H|by apply IH].
  - by apply normalize_state in Hn.
Qed.

Lemma any_is_cpu_devices ds σ :
  RPC_SESS_MASK ≠ 0 →
  any_is_cpu (PDevice <$> ds) σ = (Ok (has_cpu ds), σ).
Proof.
  intros Hmask. induction ds as [|d ds IH]; [done|].
  simpl. unfold bind at 1, get_heap. simpl.
  rewrite (bind_Ok _ _ _ _ _ (normalize_nonzero _ σ Hmask)).
  unfold is_cpu_class.
  destruct (device_type d mod RPC_SESS_MASK =? device_type tvm_cpu); done.
Qed.

Lemma init_args_loop_state default_alloc_type cfg items acc σ r σ' :
  init_args_loop default_alloc_type cfg items acc σ = (r, σ') → σ' = σ.
Proof.
  revert acc. induction items as [|c rest IH]; intros acc; simpl;
    [by inversion 1|].
  unfold bind at 1, get_heap. simpl.
  destruct c; try by inversion 1.
  intros H. apply bind_inv in H as [(n & σ1 & Hn & H)|(e & Hn & _)].
  - apply normalize_state in Hn as ->. by apply IH in H.
  - by apply normalize_state in Hn.
Qed.

Lemma init_args_loop_devices default_alloc_type cfg ds acc σ :
  RPC_SESS_MASK ≠ 0 →
  init_args_loop default_alloc_type cfg (PDevice <$> ds) acc σ =
  (Ok (acc ++ args_of (alloc_for default_alloc_type cfg) ds), σ).
Proof.
  intros Hmask. revert acc.
  induction ds as [|d ds IH]; intros acc; simpl.
  - by rewrite app_nil_r.
  - unfold bind at 1, get_heap. simpl.
    rewrite (bind_Ok _ _ _ _ _ (normalize_nonzero _ σ Hmask)).
    rewrite IH. unfold alloc_for at 2.
    destruct (dict_get cfg d); simpl; by rewrite <- !app_assoc.
Qed.

(** ** The configuration branch *)

Lemma resolve_memory_cfg_state memory_cfg σ r σ' :
  resolve_memory_cfg memory_cfg σ = (r, σ') → σ' = σ.
Proof.
  unfold resolve_memory_cfg, bind, get_heap, ret, raise. simpl.
  destruct memory_cfg as [| |s| |l|]; try by inversion 1.
  - repeat case_bool_decide; by inversion 1.
  - destruct (heap σ !! l) as [[]|]; by inversion 1.
Qed.

Lemma resolve_memory_cfg_spec memory_cfg default_alloc_type entries σ :
  memory_cfg_spec (heap σ) memory_cfg default_alloc_type entries →
  resolve_memory_cfg memory_cfg σ = (Ok (default_alloc_type, entries), σ).
Proof.
  destruct 1 as [| | |l entries Hl];
    unfold resolve_memory_cfg, bind, get_heap, ret; simpl; try done.
  by rewrite Hl.
Qed.

Lemma resolve_memory_cfg_bad_string s σ :
  s ∉ ["naive"; "pooled"] →
  resolve_memory_cfg (PStr s) σ = (Raise AssertionError, σ).
Proof.
  intros Hs. unfold resolve_memory_cfg, bind, get_heap, raise. simpl.
  by rewrite bool_decide_eq_false_2.
Qed.

Lemma resolve_memory_cfg_bad_type memory_cfg σ :
  bad_cfg_type (heap σ) memory_cfg →
  resolve_memory_cfg memory_cfg σ =
  (Raise (TypeError (memory_cfg_expected_msg (type_of (heap σ) memory_cfg))),
   σ).
Proof.
  intros (Hnone & Hstr & Hdict).
  unfold resolve_memory_cfg, bind, get_heap, raise. simpl.
  destruct memory_cfg as [| |s| |l|]; try done.
  simpl in *. destruct (heap σ !! l) as [[]|]; done.
Qed.

(** ** Store primitives *)

Lemma iter_HList l items σ :
  heap σ !! l = Some (HList items) → iter (PRef l) σ = (Ok items, σ).
Proof. intros Hl. unfold iter, bind, get_heap. simpl. by rewrite Hl. Qed.

Lemma iter_HTuple l items σ :
  heap σ !! l = Some (HTuple items) → iter (PRef l) σ = (Ok items, σ).
Proof. intros Hl. unfold iter, bind, get_heap. simpl. by rewrite Hl. Qed.

Lemma append_HList l items x σ :
  heap σ !! l = Some (HList items) →
  append (PRef l) x σ =
  (Ok tt, mkState (<[l := HList (items ++ [x])]> (heap σ)) (ffi_log σ)).
Proof. intros Hl. unfold append, bind, get_heap. simpl. by rewrite Hl. Qed.

Lemma append_HTuple l items x σ :
  heap σ !! l = Some (HTuple items) →
  append (PRef l) x σ = (Raise (AttributeError cls_tuple "append"), σ).
Proof. intros Hl. unfold append, bind, get_heap. simpl. by rewrite Hl. Qed.

Ltac mstep :=
  cbn [bind ret raise get_heap put_heap ffi heap ffi_log type_of
       is_list_or_tuple is_Device].
Ltac mrun H := rewrite (bind_Ok _ _ _ _ _ H); mstep.

(** ** The setup, from the CPU check on *)


Lemma setup_device_list self_module l memory_cfg σ ds :
  RPC_SESS_MASK ≠ 0 →
  heap σ !! l = Some (HList (PDevice <$> ds)) →
  _setup_device self_module (PRef l) memory_cfg σ =
  finish self_module memory_cfg ds (heap_after (heap σ) (PRef l) ds)
         (ffi_log σ).
Proof.
  intros Hmask Hl. destruct σ as [h log]. simpl in Hl.
  assert (l < length h)%nat as Hlt by (by eapply lookup_lt_Some).
  unfold _setup_device, finish, heap_after, bound_devices.
  mstep. rewrite Hl. mstep.
  mrun (iter_HList l _ (mkState h log) Hl).
  mrun (any_is_cpu_devices ds (mkState h log) Hmask).
  destruct (has_cpu ds) eqn:Hcpu; mstep.
  - destruct (resolve_memory_cfg memory_cfg _) as [[[def cfg]|e] σ1] eqn:Hcfg;
      pose proof (resolve_memory_cfg_state _ _ _ _ Hcfg) as ->;
      [|by rewrite (bind_Raise _ _ _ _ _ Hcfg)].
    mrun Hcfg.
    mrun (iter_HList l _ (mkState h log) Hl).
    by mrun (init_args_loop_devices def cfg ds [] (mkState h log) Hmask).
  - mrun (append_HList l _ (PDevice tvm_cpu) (mkState h log) Hl).
    set (h' := <[l:=_]> h).
    assert (h' !! l = Some (HList (PDevice <$> ds ++ [tvm_cpu]))) as Hl'.
    { unfold h'. rewrite list_lookup_insert_eq by done. by rewrite fmap_app. }
    destruct (resolve_memory_cfg memory_cfg _) as [[[def cfg]|e] σ1] eqn:Hcfg;
      pose proof (resolve_memory_cfg_state _ _ _ _ Hcfg) as ->;
      [|by rewrite (bind_Raise _ _ _ _ _ Hcfg)].
    mrun Hcfg.
    mrun (iter_HList l _ (mkState h' log) Hl').
    by mrun (init_args_loop_devices def cfg (ds ++ [tvm_cpu]) []
              (mkState h' log) Hmask).
Qed.

Lemma setup_device_tuple_cpu self_module l memory_cfg σ ds :
  RPC_SESS_MASK ≠ 0 →
  heap σ !! l = Some (HTuple (PDevice <$> ds)) →
  has_cpu ds = true →
  _setup_device self_module (PRef l) memory_cfg σ =
  finish self_module memory_cfg ds (heap σ) (ffi_log σ).
Proof.
  intros Hmask Hl Hcpu. destruct σ as [h log]. simpl in Hl.
  unfold _setup_device, finish, bound_devices.
  mstep. rewrite Hl. mstep.
  mrun (iter_HTuple l _ (mkState h log) Hl).
  mrun (any_is_cpu_devices ds (mkState h log) Hmask).
  rewrite Hcpu. mstep.
  destruct (resolve_memory_cfg memory_cfg _) as [[[def cfg]|e] σ1] eqn:Hcfg;
    pose proof (resolve_memory_cfg_state _ _ _ _ Hcfg) as ->;
    [|by rewrite (bind_Raise _ _ _ _ _ Hcfg)].
  mrun Hcfg.
  mrun (iter_HTuple l _ (mkState h log) Hl).
  by mrun (init_args_loop_devices def cfg ds [] (mkState h log) Hmask).
Qed.

Lemma setup_device_tuple_no_cpu self_module l memory_cfg σ ds :
  RPC_SESS_MASK ≠ 0 →
  heap σ !! l = Some (HTuple (PDevice <$> ds)) →
  has_cpu ds = false →
  _setup_device self_module (PRef l) memory_cfg σ =
  (Raise (AttributeError cls_tuple "append"), σ).
Proof.
  intros Hmask Hl Hcpu. destruct σ as [h log]. simpl in Hl.
  unfold _setup_device.
  mstep. rewrite Hl. mstep.
  mrun (iter_HTuple l _ (mkState h log) Hl).
  mrun (any_is_cpu_devices ds (mkState h log) Hmask).
  rewrite Hcpu.
  by rewrite (bind_Raise _ _ _ _ _
                (append_HTuple l _ (PDevice tvm_cpu) (mkState h log) Hl)).
Qed.

(** A single device is wrapped in a fresh one-element list and then treated
    like a caller's list. *)
Lemma setup_device_single self_module d memory_cfg σ :
  _setup_device self_module (PDevice d) memory_cfg σ =
  _setup_device self_module (PRef (length (heap σ))) memory_cfg
    (mkState (heap σ ++ [HList [PDevice d]]) (ffi_log σ)).
Proof.
  destruct σ as [h log]. unfold _setup_device, alloc_list.
  mstep. rewrite list_lookup_middle by done. by mstep.
Qed.

Lemma setup_device_spec self_module dev memory_cfg σ ds :
  RPC_SESS_MASK ≠ 0 →
  device_spec (heap σ) dev ds →
  _setup_device self_module dev memory_cfg σ =
  finish self_module memory_cfg ds (heap_after (heap σ) dev ds) (ffi_log σ).
Proof.
  intros Hmask [d|l ds' Hl|l ds' Hl Hcpu].
  - rewrite setup_device_single.
    rewrite (setup_device_list _ _ _ _ [d]); [|done|].
    2:{ simpl. by rewrite list_lookup_middle. }
    cbn [heap ffi_log heap_after]. f_equal. unfold bound_devices.
    destruct (has_cpu [d]); [done|].
    rewrite insert_app_r_alt by done. by rewrite Nat.sub_diag.
  - by apply setup_device_list.
  - rewrite (setup_device_tuple_cpu _ _ _ _ ds') by done.
    cbn [heap_after]. by rewrite Hcpu.
Qed.

(** ** What a run can change *)



Lemma iter_state v σ r σ' : iter v σ = (r, σ') → σ' = σ.
Proof.
  unfold iter, bind, get_heap, ret, raise. simpl.
  destruct v as [| | | |l|]; try by inversion 1.
  destruct (heap σ !! l) as [[]|]; by inversion 1.
Qed.

Lemma append_effect v x σ r σ' :
  append v x σ = (r, σ') →
  (∃ e, r = Raise e ∧ σ' = σ) ∨
  (∃ l items, v = PRef l ∧ heap σ !! l = Some (HList items) ∧ r = Ok tt ∧
     σ' = mkState (<[l := HList (items ++ [x])]> (heap σ)) (ffi_log σ)).
Proof.
  unfold append, bind, get_heap, put_heap, raise. simpl.
  destruct v as [| | | |l|]; try (inversion 1; left; by eauto).
  destruct (heap σ !! l) as [[]|] eqn:Hl; inversion 1; subst;
    try (left; by eauto).
  right. by eauto 10.
Qed.

Ltac minv H a σ1 Hm :=
  apply bind_inv in H as [(a & σ1 & Hm & H)|(? & Hm & ->)].

Lemma setup_device_ref_effect self_module l memory_cfg σ r σ' :
  is_list_or_tuple (type_of (heap σ) (PRef l)) = true →
  _setup_device self_module (PRef l) memory_cfg σ = (r, σ') →
  (heap σ' = heap σ ∨
   ∃ items, heap σ !! l = Some (HList items) ∧
     heap σ' = <[l := HList (items ++ [PDevice tvm_cpu])]> (heap σ)) ∧
  log_effect self_module (ffi_log σ) r (ffi_log σ').
Proof.
  intros Hty H. unfold _setup_device in H.
  cbn [bind get_heap] in H. rewrite Hty in H. cbn [bind ret] in H.
  minv H items σ1 Hm; apply iter_state in Hm; subst; [|split; [by left|done]].
  minv H found σ1 Hm; apply any_is_cpu_state in Hm; subst;
    [|split; [by left|done]].
  assert (∃ σ1, (heap σ1 = heap σ ∨
            ∃ items, heap σ !! l = Some (HList items) ∧
              heap σ1 = <[l := HList (items ++ [PDevice tvm_cpu])]> (heap σ)) ∧
          ffi_log σ1 = ffi_log σ ∧
          ((∃ e, r = Raise e ∧ σ' = σ1) ∨
           (let* (default_alloc_type, cfg) := resolve_memory_cfg memory_cfg in
            let* items := iter (PRef l) in
            let* init_args := init_args_loop default_alloc_type cfg items [] in
            ffi (FFI_VirtualMachineInit self_module init_args)) σ1 = (r, σ')))
    as (σ1 & Hheap & Hlog & Hrest).
  { minv H u σ1 Hm.
    - destruct found.
      + inversion Hm; subst. exists σ1. by eauto.
      + apply append_effect in Hm
          as [(e & ? & ->)|(l' & its & [= <-] & Hl & _ & ->)]; [done|].
        exists (mkState (<[l := HList (its ++ [PDevice tvm_cpu])]> (heap σ))
                        (ffi_log σ)).
        simpl. split; [right; by exists its|]. by eauto.
    - destruct found; [done|].
      apply append_effect in Hm
        as [(e & [= <-] & ->)|(l' & its & _ & _ & ? & _)]; [|done].
      exists σ. by eauto 10. }
  clear H. destruct Hrest as [(e & -> & ->)|H]; [by rewrite Hlog|].
  rewrite <- Hlog. clear Hlog.
  assert (heap σ' = heap σ1 ∧ log_effect self_module (ffi_log σ1) r (ffi_log σ'))
    as [Hh Hl]; [|by rewrite Hh].
  minv H dc σ2 Hm; apply resolve_memory_cfg_state in Hm; subst; [|done].
  destruct dc as [def cfg].
  minv H items' σ2 Hm; apply iter_state in Hm; subst; [|done].
  minv H init_args σ2 Hm; apply init_args_loop_state in Hm; subst; [|done].
  inversion H; subst. simpl. by eauto.
Qed.

Lemma setup_device_bad_dev self_module dev memory_cfg σ :
  is_list_or_tuple (type_of (heap σ) dev) = false →
  is_Device (type_of (heap σ) dev) = false →
  _setup_device self_module dev memory_cfg σ =
  (Raise (TypeError dev_expected_msg), σ).
Proof.
  intros Hseq Hdev. unfold _setup_device.
  cbn [bind get_heap]. by rewrite Hseq, Hdev.
Qed.

Lemma setup_device_effect self_module dev memory_cfg σ r σ' :
  _setup_device self_module dev memory_cfg σ = (r, σ') →
  store_effect (heap σ) dev (heap σ') ∧
  log_effect self_module (ffi_log σ) r (ffi_log σ').
Proof.
  intros H.
  destruct (is_list_or_tuple (type_of (heap σ) dev)) eqn:Hseq.
  - destruct dev as [| | | |l|]; try done.
    apply setup_device_ref_effect in H as [[->|(items & Hl & ->)] Hlog];
      [| |done]; split; try done; [apply effect_none|by eapply effect_append].
  - destruct (is_Device (type_of (heap σ) dev)) eqn:Hdev.
    + destruct dev as [| | |d|l|]; try done.
      { rewrite setup_device_single in H.
        apply setup_device_ref_effect in H as [Hheap Hlog].
        - split; [|done]. simpl in Hheap.
          destruct Hheap as [->|(items & Hl & ->)]; [apply effect_fresh|].
          rewrite list_lookup_middle in Hl by done. injection Hl as <-.
          rewrite insert_app_r_alt by done. rewrite Nat.sub_diag.
          apply effect_fresh.
        - simpl. by rewrite list_lookup_middle. }
      simpl in Hdev. by destruct (heap σ !! l) as [[]|].
    + rewrite setup_device_bad_dev in H by done. inversion H; subst.
      split; [apply effect_none|done].
Qed.

(** ** Dictionary lookup *)

Lemma dict_get_Some entries d v :
  dict_get entries d = Some v → (PDevice d, v) ∈ entries.
Proof.
  unfold dict_get. destruct (find _ _) as [[k v']|] eqn:Hfind; [|done].
  intros [= <-]. apply find_some in Hfind as [Hin Hkey].
  unfold key_is in Hkey. simpl in Hkey. destruct k; try done.
  apply bool_decide_eq_true in Hkey as ->. by apply list_elem_of_In.
Qed.

Lemma dict_get_None entries d :
  dict_get entries d = None ↔ PDevice d ∉ entries.*1.
Proof.
  unfold dict_get. induction entries as [|[k v] entries IH]; simpl.
  - split; [|done]. intros _. apply not_elem_of_nil.
  - unfold key_is at 1. simpl. rewrite not_elem_of_cons.
    destruct k as [| | |d'| |];
      try (rewrite IH; split; [by intros H|by intros [_ H]]).
    case_bool_decide as Hd.
    + subst. simpl. split; [done|]. by intros [H _].
    + rewrite IH. split; [intros H; split; [congruence|done]|by intros [_ H]].
Qed.

(** In a dictionary, where keys are distinct, a device is mapped to the
    value of its one item. *)
Lemma dict_get_item entries d v :
  NoDup entries.*1 → (PDevice d, v) ∈ entries → dict_get entries d = Some v.
Proof.
  unfold dict_get. induction entries as [|[k v'] entries IH]; simpl.
  - intros _ Hin. by apply elem_of_nil in Hin.
  - intros [Hk Hnd]%NoDup_cons Hin. unfold key_is at 1. simpl.
    apply elem_of_cons in Hin as [[= <- <-]|Hin].
    + by rewrite bool_decide_eq_true_2.
    + destruct k as [| | |d'| |]; try by apply IH.
      case_bool_decide as Hd; [|by apply IH].
      subst. destruct Hk. apply list_elem_of_fmap. by exists (PDevice d, v).
Qed.

(** ** The argument list as a registry *)

Lemma length_args_of alloc ds :
  length (args_of alloc ds) = (3 * length ds)%nat.
Proof. induction ds as [|d ds IH]; simpl; [done|]. rewrite IH. lia. Qed.

Lemma args_of_app alloc ds1 ds2 :
  args_of alloc (ds1 ++ ds2) = args_of alloc ds1 ++ args_of alloc ds2.
Proof. unfold args_of. by rewrite flat_map_app. Qed.

Lemma args_of_lookup alloc ds i d :
  ds !! i = Some d →
  args_of alloc ds !! (3 * i)%nat =
    Some (PInt (device_type d mod RPC_SESS_MASK)) ∧
  args_of alloc ds !! (3 * i + 1)%nat = Some (PInt (device_id d)) ∧
  args_of alloc ds !! (3 * i + 2)%nat = Some (alloc d).
Proof.
  revert i. induction ds as [|d' ds IH]; intros [|i] Hi; try done.
  - by injection Hi as ->.
  - apply IH in Hi as (H0 & H1 & H2).
    replace (3 * S i)%nat with (S (S (S (3 * i)))) by lia.
    by simpl in *.
Qed.

Lemma bindings_from_args_of alloc ds k :
  bindings_from k (args_of alloc ds) =
  imap (λ i d, binding_of alloc (k + i) d) ds.
Proof.
  revert k. induction ds as [|d ds IH]; intros k; simpl; [done|].
  rewrite IH. unfold binding_of at 2. rewrite Nat.add_0_r. f_equal.
  apply imap_ext. intros i d' _. simpl. f_equal. lia.
Qed.

Lemma registry_args_of alloc ds :
  registry (args_of alloc ds) = imap (binding_of alloc) ds.
Proof. apply bindings_from_args_of. Qed.

(** ** Completed runs *)

Lemma has_cpu_false ds :
  has_cpu ds = false ↔
  Forall (λ d, device_type d mod RPC_SESS_MASK ≠ device_type tvm_cpu) ds.
Proof.
  unfold has_cpu. induction ds as [|d ds IH]; simpl.
  - split; [by constructor|done].
  - rewrite orb_false_iff, IH, Forall_cons. unfold is_cpu_class.
    by rewrite Z.eqb_neq.
Qed.

Lemma has_cpu_true ds :
  has_cpu ds = true ↔
  Exists (λ d, device_type d mod RPC_SESS_MASK = device_type tvm_cpu) ds.
Proof.
  unfold has_cpu. induction ds as [|d ds IH]; simpl.
  - split; [done|by inversion 1].
  - rewrite orb_true_iff, IH, Exists_cons. unfold is_cpu_class.
    by rewrite Z.eqb_eq.
Qed.

Lemma bound_devices_app ds :
  bound_devices ds = ds ++ (if has_cpu ds then [] else [tvm_cpu]).
Proof. unfold bound_devices. destruct (has_cpu ds); by rewrite ?app_nil_r. Qed.

(** The CPU check leaves every object other than the device list alone. *)
Lemma heap_after_lookup h dev ds c o :
  device_spec h dev ds →
  h !! c = Some o →
  (∀ items, o ≠ HList items) →
  heap_after h dev ds !! c = Some o.
Proof.
  intros Hdev Hc Ho. destruct Hdev as [d|l ds Hl|l ds Hl Hcpu]; simpl.
  - by apply lookup_app_l_Some.
  - destruct (has_cpu ds); [done|].
    rewrite list_lookup_insert_ne; [done|].
    intros ->. rewrite Hl in Hc. injection Hc as <-. by eapply Ho.
  - by rewrite Hcpu.
Qed.

Lemma memory_cfg_spec_heap_after h dev ds memory_cfg default_alloc_type cfg :
  device_spec h dev ds →
  memory_cfg_spec h memory_cfg default_alloc_type cfg →
  memory_cfg_spec (heap_after h dev ds) memory_cfg default_alloc_type cfg.
Proof.
  intros Hdev [| | |c entries Hc]; try by constructor.
  constructor. by eapply heap_after_lookup.
Qed.


Lemma setup_device_completes self_module dev memory_cfg σ ds
    default_alloc_type cfg :
  RPC_SESS_MASK ≠ 0 →
  device_spec (heap σ) dev ds →
  memory_cfg_spec (heap σ) memory_cfg default_alloc_type cfg →
  completes self_module dev memory_cfg σ ds (alloc_for default_alloc_type cfg).
Proof.
  intros Hmask Hdev Hcfg. split; [|apply registry_args_of].
  rewrite (setup_device_spec _ _ _ _ ds) by done. unfold finish.
  by rewrite (resolve_memory_cfg_spec _ default_alloc_type cfg)
    by (by apply memory_cfg_spec_heap_after).
Qed.

(** A run stopped by the configuration branch: the exception, after the CPU
    check has had its effect on the store, and no native call. *)
Lemma setup_device_cfg_raises self_module dev memory_cfg σ ds e :
  RPC_SESS_MASK ≠ 0 →
  device_spec (heap σ) dev ds →
  (∀ σ1, resolve_memory_cfg memory_cfg σ1 = (Raise e, σ1)) →
  _setup_device self_module dev memory_cfg σ =
  (Raise e, mkState (heap_after (heap σ) dev ds) (ffi_log σ)).
Proof.
  intros Hmask Hdev Hcfg.
  rewrite (setup_device_spec _ _ _ _ ds) by done. unfold finish.
  by rewrite Hcfg.
Qed.

Lemma heap_after_lookup_inv h dev ds c o :
  device_spec h dev ds →
  heap_after h dev ds !! c = Some o →
  (∀ items, o ≠ HList items) →
  h !! c = Some o.
Proof.
  intros Hdev Hc Ho. destruct Hdev as [d|l ds Hl|l ds Hl Hcpu]; simpl in Hc.
  - apply lookup_app_Some in Hc as [Hc|[_ Hc]]; [done|].
    destruct (c - length h)%nat; [|done].
    injection Hc as <-. by edestruct Ho.
  - destruct (has_cpu ds); [done|].
    destruct (decide (l = c)) as [->|Hne].
    + rewrite list_lookup_insert_eq in Hc by (by eapply lookup_lt_Some).
      injection Hc as <-. by edestruct Ho.
    + by rewrite list_lookup_insert_ne in Hc.
  - by rewrite Hcpu in Hc.
Qed.

Lemma bad_cfg_type_heap_after h dev ds memory_cfg :
  device_spec h dev ds →
  bad_cfg_type h memory_cfg →
  bad_cfg_type (heap_after h dev ds) memory_cfg.
Proof.
  intros Hdev (Hnone & Hstr & Hdict). split; [done|].
  destruct memory_cfg as [| | | |c|]; try done. simpl in *.
  destruct (heap_after h dev ds !! c) as [[| |entries]|] eqn:Hc; try done.
  apply heap_after_lookup_inv in Hc; [|done..].
  by rewrite Hc in Hdict.
Qed.

Lemma bind_inv_Ok {A B : Type} (m : M A) (f : A → M B) σ b σ2 :
  bind m f σ = (Ok b, σ2) →
  ∃ a σ1, m σ = (Ok a, σ1) ∧ f a σ1 = (Ok b, σ2).
Proof. intros [H|(e & _ & [=])]%bind_inv; done. Qed.

(** A run that returns has passed the configuration branch. *)
Lemma setup_device_Ok_cfg self_module dev memory_cfg σ u σ' :
  _setup_device self_module dev memory_cfg σ = (Ok u, σ') →
  ∃ σ1 dc, resolve_memory_cfg memory_cfg σ1 = (Ok dc, σ1).
Proof.
  unfold _setup_device. cbn [bind get_heap]. intros H.
  apply bind_inv_Ok in H as (devs & σ1 & _ & H).
  apply bind_inv_Ok in H as (items & σ2 & _ & H).
  apply bind_inv_Ok in H as (found & σ3 & _ & H).
  apply bind_inv_Ok in H as (? & σ4 & _ & H).
  apply bind_inv_Ok in H as (dc & σ5 & Hcfg & H).
  pose proof (resolve_memory_cfg_state _ _ _ _ Hcfg) as ->. by eauto.
Qed.

(** Whatever the arguments, a run that raises has made no native call. *)
Lemma setup_device_Raise_log self_module dev memory_cfg σ e σ' :
  _setup_device self_module dev memory_cfg σ = (Raise e, σ') →
  ffi_log σ' = ffi_log σ.
Proof. by intros [_ Hlog]%setup_device_effect. Qed.

(** ** Allocator strategy, CPU append, normalization, slots *)

(** C1. Allocator strategy resolution.  On a device specification on which
    the CPU check completes, the run returns and the registry holds one
    binding per bound
    device (the caller's devices, then the appended CPU device if there is
    one), each with this strategy: with no [memory_cfg], pooled for every
    device; with ["naive"] or ["pooled"], that strategy for every device;
    with a dictionary, the value of the device's item when the device is a
    key, and pooled otherwise. *)
Theorem C1_allocator_strategy_resolution
    self_module dev memory_cfg σ ds :
  RPC_SESS_MASK ≠ 0 →
  device_spec (heap σ) dev ds →
  (memory_cfg = PNone →
     completes self_module dev memory_cfg σ ds
       (λ _, PInt POOLED_ALLOCATOR)) ∧
  (memory_cfg = PStr "naive" →
     completes self_module dev memory_cfg σ ds
       (λ _, PInt NAIVE_ALLOCATOR)) ∧
  (memory_cfg = PStr "pooled" →
     completes self_module dev memory_cfg σ ds
       (λ _, PInt POOLED_ALLOCATOR)) ∧
  (∀ c entries,
     memory_cfg = PRef c →
     heap σ !! c = Some (HDict entries) →
     NoDup entries.*1 →
     ∃ alloc,
       completes self_module dev memory_cfg σ ds alloc ∧
       ∀ d, (∀ v, (PDevice d, v) ∈ entries → alloc d = v) ∧
            (PDevice d ∉ entries.*1 → alloc d = PInt POOLED_ALLOCATOR)).
Proof.
  intros Hmask Hdev. split; [|split; [|split]].
  - intros ->. by apply (setup_device_completes _ _ _ _ _ _ []), cfg_none.
  - intros ->. by apply (setup_device_completes _ _ _ _ _ _ []), cfg_naive.
  - intros ->. by apply (setup_device_completes _ _ _ _ _ _ []), cfg_pooled.
  - intros c entries -> Hc Hnd.
    exists (alloc_for (PInt POOLED_ALLOCATOR) entries). split.
    + by apply setup_device_completes, cfg_dict.
    + intros d. unfold alloc_for. split.
      * intros v Hin. by rewrite (dict_get_item _ _ v).
      * intros Hout. apply dict_get_None in Hout. by rewrite Hout.
Qed.

(** CPU auto-append, where the CPU check completes.  When no
    device's type, reduced modulo the session mask, equals the host CPU
    type, the registry is the caller's bindings followed by exactly one
    binding, of the CPU device, at the next slot; when some device's reduced
    type equals the CPU type, the registry is the caller's bindings and
    nothing is appended. *)
Theorem cpu_auto_append
    self_module dev memory_cfg σ ds default_alloc_type cfg :
  RPC_SESS_MASK ≠ 0 →
  device_spec (heap σ) dev ds →
  memory_cfg_spec (heap σ) memory_cfg default_alloc_type cfg →
  ∃ init_args h',
    _setup_device self_module dev memory_cfg σ =
      (Ok tt,
       mkState h'
         (ffi_log σ ++ [FFI_VirtualMachineInit self_module init_args])) ∧
    let alloc := alloc_for default_alloc_type cfg in
    (Forall (λ d, device_type d mod RPC_SESS_MASK ≠ device_type tvm_cpu) ds →
       registry init_args =
         imap (binding_of alloc) ds ++
         [binding_of alloc (length ds) tvm_cpu]) ∧
    (Exists (λ d, device_type d mod RPC_SESS_MASK = device_type tvm_cpu) ds →
       registry init_args = imap (binding_of alloc) ds).
Proof.
  intros Hmask Hdev Hcfg.
  destruct (setup_device_completes self_module _ _ _ _ _ _ Hmask Hdev Hcfg)
    as [Hrun Hreg].
  eexists _, _. split; [exact Hrun|]. simpl. rewrite Hreg.
  split; intros Hds.
  - apply has_cpu_false in Hds. unfold bound_devices. rewrite Hds.
    rewrite imap_app. simpl. by rewrite Nat.add_0_r.
  - apply has_cpu_true in Hds. unfold bound_devices. by rewrite Hds.
Qed.

(** C3. Device-type normalization.  Every type handed to the native
    initializer is the device's type modulo [RPC_SESS_MASK], and the CPU
    check compares that reduced type: a device whose type is the CPU type
    plus a multiple of the mask (a remote session's CPU) counts as the CPU,
    so nothing is appended, the caller's list stays as it was and the
    registry has the caller's bindings only. *)
Theorem C3_device_type_normalization
    self_module dev memory_cfg σ ds default_alloc_type cfg :
  RPC_SESS_MASK ≠ 0 →
  device_spec (heap σ) dev ds →
  memory_cfg_spec (heap σ) memory_cfg default_alloc_type cfg →
  ∃ init_args h',
    _setup_device self_module dev memory_cfg σ =
      (Ok tt,
       mkState h'
         (ffi_log σ ++ [FFI_VirtualMachineInit self_module init_args])) ∧
    (∀ i d, bound_devices ds !! i = Some d →
       init_args !! (3 * i)%nat =
         Some (PInt (device_type d mod RPC_SESS_MASK)) ∧
       phys_type <$> registry init_args !! i =
         Some (PInt (device_type d mod RPC_SESS_MASK))) ∧
    (∀ d session,
       d ∈ ds →
       0 ≤ device_type tvm_cpu < RPC_SESS_MASK →
       device_type d = session * RPC_SESS_MASK + device_type tvm_cpu →
       bound_devices ds = ds ∧
       length (registry init_args) = length ds ∧
       (∀ l, dev = PRef l → h' = heap σ)).
Proof.
  intros Hmask Hdev Hcfg.
  destruct (setup_device_completes self_module _ _ _ _ _ _ Hmask Hdev Hcfg)
    as [Hrun Hreg].
  eexists _, _. split; [exact Hrun|]. rewrite Hreg. split.
  - intros i d Hi. split.
    + by eapply args_of_lookup in Hi as (? & _ & _).
    + rewrite list_lookup_imap, Hi. done.
  - intros d session Hd Hrange Hty.
    assert (has_cpu ds = true) as Hcpu.
    { apply has_cpu_true, Exists_exists. exists d. split; [done|].
      rewrite Hty, Z.add_comm, Z_mod_plus_full. by apply Z.mod_small. }
    unfold bound_devices. rewrite Hcpu, length_imap.
    repeat split. intros l ->. simpl. by rewrite Hcpu.
Qed.

(** C4. Positional slot assignment.  The registry lists the bound devices,
    the caller's in the caller's order and then the appended CPU device if
    there is one, and the binding at position [i] carries slot [i] and the
    fields of the [i]-th device. *)
Theorem C4_positional_slot_assignment
    self_module dev memory_cfg σ ds default_alloc_type cfg :
  RPC_SESS_MASK ≠ 0 →
  device_spec (heap σ) dev ds →
  memory_cfg_spec (heap σ) memory_cfg default_alloc_type cfg →
  ∃ init_args h',
    _setup_device self_module dev memory_cfg σ =
      (Ok tt,
       mkState h'
         (ffi_log σ ++ [FFI_VirtualMachineInit self_module init_args])) ∧
    bound_devices ds = ds ++ (if has_cpu ds then [] else [tvm_cpu]) ∧
    length (registry init_args) = length (bound_devices ds) ∧
    (∀ i d, bound_devices ds !! i = Some d →
       registry init_args !! i =
         Some (mkBinding i (PInt (device_type d mod RPC_SESS_MASK))
                 (PInt (device_id d))
                 (alloc_for default_alloc_type cfg d)) ∧
       init_args !! (3 * i)%nat =
         Some (PInt (device_type d mod RPC_SESS_MASK)) ∧
       init_args !! (3 * i + 1)%nat = Some (PInt (device_id d)) ∧
       init_args !! (3 * i + 2)%nat =
         Some (alloc_for default_alloc_type cfg d)).
Proof.
  intros Hmask Hdev Hcfg.
  destruct (setup_device_completes self_module _ _ _ _ _ _ Hmask Hdev Hcfg)
    as [Hrun Hreg].
  eexists _, _. split; [exact Hrun|]. rewrite Hreg.
  split; [apply bound_devices_app|]. split; [apply length_imap|].
  intros i d Hi. split.
  - by rewrite list_lookup_imap, Hi.
  - by apply args_of_lookup.
Qed.

(** ** Errors *)

(** C5. A [memory_cfg] string other than ["naive"] and ["pooled"]: the run
    raises before any native call, whatever the device specification; on a
    device specification on which the CPU check completes, the exception is
    the [AssertionError] of the [assert] on the string. *)
Theorem C5_invalid_strategy_string self_module dev s σ :
  s ∉ ["naive"; "pooled"] →
  (∃ e σ',
     _setup_device self_module dev (PStr s) σ = (Raise e, σ') ∧
     ffi_log σ' = ffi_log σ) ∧
  (∀ ds,
     RPC_SESS_MASK ≠ 0 →
     device_spec (heap σ) dev ds →
     _setup_device self_module dev (PStr s) σ =
       (Raise AssertionError,
        mkState (heap_after (heap σ) dev ds) (ffi_log σ))).
Proof.
  intros Hs. split.
  - destruct (_setup_device self_module dev (PStr s) σ) as [[u|e] σ'] eqn:H.
    + apply setup_device_Ok_cfg in H as (σ1 & dc & Hcfg).
      by rewrite resolve_memory_cfg_bad_string in Hcfg.
    + exists e, σ'. split; [done|]. by eapply setup_device_Raise_log.
  - intros ds Hmask Hdev. apply setup_device_cfg_raises; [done..|].
    intros σ1. by apply resolve_memory_cfg_bad_string.
Qed.

(** C6, as the code has it.  A [dev] that is neither a device, a list nor a
    tuple raises the [TypeError] on [dev] at once: the state is untouched
    and no native call is made.  The elements of a list or tuple are not
    looked at by that check.  A [memory_cfg] that is neither [None], a
    string nor a dictionary raises the [TypeError] on [memory_cfg] when the
    device specification is one on which the CPU check completes; the check
    has run by then, and no native call is made. *)
Theorem C6_setup_type_validation self_module dev memory_cfg σ :
  (is_list_or_tuple (type_of (heap σ) dev) = false →
   is_Device (type_of (heap σ) dev) = false →
   _setup_device self_module dev memory_cfg σ =
     (Raise (TypeError dev_expected_msg), σ)) ∧
  (∀ ds,
     RPC_SESS_MASK ≠ 0 →
     device_spec (heap σ) dev ds →
     bad_cfg_type (heap σ) memory_cfg →
     let h' := heap_after (heap σ) dev ds in
     _setup_device self_module dev memory_cfg σ =
       (Raise (TypeError (memory_cfg_expected_msg (type_of h' memory_cfg))),
        mkState h' (ffi_log σ))).
Proof.
  split.
  - apply setup_device_bad_dev.
  - intros ds Hmask Hdev Hbad h'.
    rewrite (setup_device_spec _ _ _ _ ds) by done. unfold finish.
    by rewrite resolve_memory_cfg_bad_type
      by (by apply bad_cfg_type_heap_after).
Qed.

(** ** Effects on the caller's objects *)

(** C8. A caller's list of devices with none of CPU class is the very list
    the setup appends to: whatever [memory_cfg] is, and whether or not the
    run then raises, the store after the run is the store before it with
    the CPU device added at the end of that list.  And no run changes the
    caller's objects in another way: the store is left as it was, or has
    gained a list of the wrapper's own, or has had that append. *)
Theorem C8_caller_list_mutated self_module l memory_cfg σ ds :
  RPC_SESS_MASK ≠ 0 →
  heap σ !! l = Some (HList (PDevice <$> ds)) →
  Forall (λ d, device_type d mod RPC_SESS_MASK ≠ device_type tvm_cpu) ds →
  (∃ r log',
     _setup_device self_module (PRef l) memory_cfg σ =
       (r, mkState (<[l := HList ((PDevice <$> ds) ++ [PDevice tvm_cpu])]>
                      (heap σ)) log')) ∧
  (∀ dev' memory_cfg' σ0,
     store_effect (heap σ0) dev'
       (heap (_setup_device self_module dev' memory_cfg' σ0).2)).
Proof.
  intros Hmask Hl Hds. split.
  - rewrite (setup_device_list _ _ _ _ ds) by done.
    apply has_cpu_false in Hds. unfold finish, heap_after. rewrite Hds.
    destruct (resolve_memory_cfg _ _) as [[[def cfg]|e] σ1]; by eauto.
  - intros dev' memory_cfg' σ0.
    destruct (_setup_device _ _ _ σ0) as [r σ'] eqn:H.
    by apply setup_device_effect in H as [? _].
Qed.

(** C9. A tuple of devices with none of CPU class: the run raises the
    [AttributeError] of [append] on a tuple, whatever [memory_cfg] is; it
    neither appends the CPU device nor reaches the checks on [memory_cfg],
    and leaves the state as it was. *)
Theorem C9_tuple_without_cpu self_module l memory_cfg σ ds :
  RPC_SESS_MASK ≠ 0 →
  heap σ !! l = Some (HTuple (PDevice <$> ds)) →
  Forall (λ d, device_type d mod RPC_SESS_MASK ≠ device_type tvm_cpu) ds →
  is_list_or_tuple (type_of (heap σ) (PRef l)) = true ∧
  _setup_device self_module (PRef l) memory_cfg σ =
    (Raise (AttributeError cls_tuple "append"), σ).
Proof.
  intros Hmask Hl Hds. split; [simpl; by rewrite Hl|].
  apply (setup_device_tuple_no_cpu _ _ _ _ ds); [done..|].
  by apply has_cpu_false.
Qed.

(** C10. The values of a [memory_cfg] dictionary are not checked: whatever
    the dictionary holds, the run returns, and the value held for a bound
    device is the third argument of that device, as it is.  The string form
    is the one that is checked: a string other than ["naive"] and
    ["pooled"] stops the run. *)
Theorem C10_dict_values_unchecked self_module dev c σ ds entries :
  RPC_SESS_MASK ≠ 0 →
  device_spec (heap σ) dev ds →
  heap σ !! c = Some (HDict entries) →
  NoDup entries.*1 →
  (∃ init_args h',
     _setup_device self_module dev (PRef c) σ =
       (Ok tt,
        mkState h'
          (ffi_log σ ++ [FFI_VirtualMachineInit self_module init_args])) ∧
     ∀ i d v,
       bound_devices ds !! i = Some d →
       (PDevice d, v) ∈ entries →
       init_args !! (3 * i + 2)%nat = Some v ∧
       strategy <$> registry init_args !! i = Some v) ∧
  (∀ s, s ∉ ["naive"; "pooled"] →
     ∃ h',
       _setup_device self_module dev (PStr s) σ =
         (Raise AssertionError, mkState h' (ffi_log σ))).
Proof.
  intros Hmask Hdev Hc Hnd. split.
  - destruct (setup_device_completes self_module dev (PRef c) σ ds
                (PInt POOLED_ALLOCATOR) entries) as [Hrun Hreg];
      [done..|by constructor|].
    eexists _, _. split; [exact Hrun|]. rewrite Hreg.
    intros i d v Hi Hin.
    assert (alloc_for (PInt POOLED_ALLOCATOR) entries d = v) as Hv.
    { unfold alloc_for. by rewrite (dict_get_item _ _ v). }
    split.
    + eapply args_of_lookup in Hi as (_ & _ & ->). by rewrite Hv.
    + rewrite list_lookup_imap, Hi. simpl. by rewrite Hv.
  - intros s Hs. eexists. apply setup_device_cfg_raises; [done..|].
    intros σ1. by apply resolve_memory_cfg_bad_string.
Qed.

(** ** Round trip of the codec *)

Lemma byte_of_to_N v : (v < 256)%N → Byte.to_N (byte_of v) = v.
Proof.
  intros Hv. unfold byte_of.
  destruct (Byte.of_N v) as [b|] eqn:Hb; [by apply Byte.to_of_N|].
  apply Byte.of_N_None_iff in Hb. lia.
Qed.

Lemma length_le_bytes n v : length (le_bytes n v) = n.
Proof. revert v. induction n as [|n IH]; intros v; simpl; by rewrite ?IH. Qed.

Lemma le_value_le_bytes n v :
  (v < 256 ^ N.of_nat n)%N → le_value (le_bytes n v) = v.
Proof.
  revert v. induction n as [|n IH]; intros v Hv; simpl.
  - simpl in Hv. lia.
  - rewrite byte_of_to_N by (apply N.mod_lt; lia).
    rewrite IH.
    + pose proof (N.div_mod v 256). lia.
    + rewrite Nat2N.inj_succ, N.pow_succ_r' in Hv.
      apply N.Div0.div_lt_upper_bound. lia.
Qed.


Lemma get_bytes_app bs rest :
  get_bytes (length bs) (bs ++ rest) = inr (bs, rest).
Proof.
  unfold get_bytes. rewrite decide_True by (rewrite length_app; lia).
  by rewrite take_app_length, drop_app_length.
Qed.

Lemma get_u64_put v : u64 v = true → decodes put_u64 get_u64 v.
Proof.
  intros Hv%N.ltb_lt rest. unfold get_u64, put_u64, dec_bind, dec_ret.
  replace 8%nat with (length (le_bytes 8 v)) at 1 by apply length_le_bytes.
  rewrite get_bytes_app. by rewrite le_value_le_bytes.
Qed.

Lemma get_i64_put z : i64 z = true → decodes put_i64 get_i64 z.
Proof.
  intros [Hlo%Z.leb_le Hhi%Z.ltb_lt]%andb_true_iff rest.
  unfold get_i64, put_i64, dec_bind.
  assert (0 ≤ z mod 2 ^ 64 < 2 ^ 64) as Hmod by (apply Z.mod_pos_bound; lia).
  rewrite get_u64_put by (apply N.ltb_lt; lia). unfold dec_ret. do 2 f_equal.
  rewrite Z2N.id by lia.
  destruct (Z_lt_dec z 0) as [Hneg|Hpos].
  - rewrite <- (Z_mod_plus_full z 1), Z.mod_small by lia.
    destruct (N.ltb_spec (Z.to_N (z + 1 * 2 ^ 64)) (2 ^ 63)); lia.
  - rewrite Z.mod_small by lia.
    destruct (N.ltb_spec (Z.to_N z) (2 ^ 63)); lia.
Qed.

Lemma get_many_put {A : Type} (put : A → list byte) (d : decoder A) l rest :
  Forall (decodes put d) l →
  get_many d (length l) (flat_map put l ++ rest) = inr (l, rest).
Proof.
  induction 1 as [|a l Ha _ IH]; [done|]. simpl.
  unfold dec_bind at 1. rewrite <- app_assoc, Ha.
  unfold dec_bind at 1. by rewrite IH.
Qed.

Lemma get_seq_put {A : Type} (put : A → list byte) (d : decoder A) l :
  len64 l = true →
  Forall (decodes put d) l →
  decodes (put_seq put) (get_seq d) l.
Proof.
  intros Hlen Hl rest. unfold get_seq, put_seq, dec_bind.
  rewrite <- app_assoc, get_u64_put by done.
  rewrite Nat2N.id. by apply get_many_put.
Qed.

Lemma Forall_decodes {A : Type} (put : A → list byte) (d : decoder A)
    (fits : A → bool) l :
  (∀ a, fits a = true → decodes put d a) →
  forallb fits l = true →
  Forall (decodes put d) l.
Proof.
  intros Hd Hl. apply Forall_forall. intros a Ha. apply Hd.
  rewrite forallb_forall in Hl. by apply Hl, list_elem_of_In.
Qed.

Lemma get_instruction_put i :
  instruction_fits i = true → decodes put_instruction get_instruction i.
Proof.
  intros [[Hop [Hnr Hr]%andb_true_iff]%andb_true_iff
          [Hni Hi]%andb_true_iff]%andb_true_iff rest.
  unfold get_instruction, put_instruction.
  unfold dec_bind at 1. rewrite <- app_assoc, get_u64_put by done.
  unfold dec_bind at 1. rewrite <- app_assoc.
  rewrite get_seq_put by eauto using Forall_decodes, get_u64_put.
  unfold dec_bind at 1.
  rewrite get_seq_put by eauto using Forall_decodes, get_i64_put.
  by destruct i.
Qed.

Lemma get_constant_put c :
  constant_fits c = true → decodes put_constant get_constant c.
Proof.
  intros Hc rest. unfold get_constant, put_constant.
  destruct c as [value|dims|data]; simpl in Hc;
    unfold dec_bind at 1; rewrite <- app_assoc, get_u64_put by done.
  - unfold dec_bind. by rewrite get_i64_put.
  - apply andb_true_iff in Hc as [Hn Hd]. unfold dec_bind.
    by rewrite get_seq_put by eauto using Forall_decodes, get_u64_put.
  - unfold dec_bind at 1. rewrite <- app_assoc, get_u64_put by done.
    unfold dec_bind. by rewrite Nat2N.id, get_bytes_app.
Qed.

Lemma get_function_put f :
  function_fits f = true → decodes put_function get_function f.
Proof.
  intros [[[Hn He]%andb_true_iff Hf]%andb_true_iff Hp]%andb_true_iff rest.
  unfold get_function, put_function. cbv zeta.
  unfold dec_bind at 1. rewrite <- app_assoc, get_u64_put by done.
  unfold dec_bind at 1. rewrite <- app_assoc, Nat2N.id, get_bytes_app.
  unfold dec_bind at 1. rewrite <- app_assoc, get_u64_put by done.
  unfold dec_bind at 1. rewrite <- app_assoc, get_u64_put by done.
  unfold dec_bind at 1. rewrite get_u64_put by done.
  unfold dec_ret. rewrite String.string_of_list_byte_of_string.
  by destruct f as [name []].
Qed.

Lemma put_function_nonempty f : put_function f ≠ [].
Proof. unfold put_function, put_u64. by simpl. Qed.

Lemma get_functions_step fuel bs :
  bs ≠ [] →
  get_functions (S fuel) bs =
  match get_function bs with
  | inl e => inl e
  | inr (f, rest) =>
      match get_functions fuel rest with
      | inl e => inl e
      | inr fs => inr (f :: fs)
      end
  end.
Proof. by destruct bs. Qed.

Lemma get_functions_put fs fuel :
  forallb function_fits fs = true →
  (length fs ≤ fuel)%nat →
  get_functions fuel (flat_map put_function fs) = inr fs.
Proof.
  revert fuel. induction fs as [|f fs IH]; intros fuel Hfs Hfuel.
  - by destruct fuel.
  - cbn [forallb] in Hfs. apply andb_true_iff in Hfs as [Hf Hfs].
    destruct fuel as [|fuel]; [simpl in Hfuel; lia|].
    change (flat_map put_function (f :: fs))
      with (put_function f ++ flat_map put_function fs).
    rewrite get_functions_step.
    + rewrite get_function_put by done.
      rewrite IH; [done..|]. simpl in Hfuel. lia.
    + intros [Hbs _]%app_eq_nil. by apply put_function_nonempty in Hbs.
Qed.

Lemma length_flat_map_put_function fs :
  (length fs ≤ length (flat_map put_function fs))%nat.
Proof.
  induction fs as [|f fs IH]; simpl; [done|].
  rewrite length_app.
  destruct (put_function f) eqn:Hf; [by apply put_function_nonempty in Hf|].
  simpl. lia.
Qed.

Lemma decode_encode e : valid_executable e = true → decode (encode e) = inr e.
Proof.
  unfold valid_executable. rewrite !andb_true_iff.
  intros [[[[[[Hv Hni] Hnc] Hi] Hc] Hf] Hrefs].
  unfold decode, encode, get_body.
  unfold dec_bind at 1. rewrite get_u64_put by done.
  rewrite N.eqb_refl. cbn [negb].
  unfold dec_bind at 1. rewrite get_u64_put by done.
  unfold dec_bind at 1. rewrite get_u64_put by done.
  unfold dec_bind at 1. rewrite Nat2N.id.
  rewrite get_many_put by eauto using Forall_decodes, get_instruction_put.
  unfold dec_bind at 1. rewrite Nat2N.id.
  rewrite get_many_put by eauto using Forall_decodes, get_constant_put.
  unfold dec_ret.
  rewrite get_functions_put by auto using length_flat_map_put_function.
  rewrite bool_decide_eq_true_2 by apply NoDup_fst_map_to_list.
  rewrite Hrefs. cbn [andb]. rewrite list_to_map_to_list. by destruct e.
Qed.

Lemma load_after_save e file_name fs fs' :
  valid_executable e = true →
  save_to_file e file_name fs = inr fs' →
  load_exec_from_file file_name fs' = inr e.
Proof.
  intros He. unfold save_to_file, ExecutableSaveToFile.
  destruct (writable file_name); [|done]. intros [= <-].
  unfold load_exec_from_file, ExecutableLoadFromFile.
  rewrite lookup_insert_eq. by apply decode_encode.
Qed.

Lemma save_to_file_writable e file_name fs :
  writable file_name = true →
  save_to_file e file_name fs = inr (<[file_name := encode e]> fs).
Proof.
  intros Hw. unfold save_to_file, ExecutableSaveToFile. by rewrite Hw.
Qed.

(** C7. Codec round trip.  For every executable the format can hold (fields
    within their eight bytes, indices in bounds), decoding its encoding
    yields an executable with the same instructions, constants and function
    table.  [save_to_file] at a path that can be written succeeds, puts the
    encoding at that path and leaves every other file alone, and
    [load_exec_from_file] at that path then returns the executable; so does
    loading after any save that has succeeded. *)
Theorem C7_codec_round_trip e :
  valid_executable e = true →
  (∃ e',
     decode (encode e) = inr e' ∧
     instructions e' = instructions e ∧
     constants e' = constants e ∧
     functions e' = functions e) ∧
  (∀ file_name fs,
     writable file_name = true →
     ∃ fs',
       save_to_file e file_name fs = inr fs' ∧
       fs' !! file_name = Some (encode e) ∧
       (∀ other, other ≠ file_name → fs' !! other = fs !! other) ∧
       load_exec_from_file file_name fs' = inr e) ∧
  (∀ file_name fs fs',
     save_to_file e file_name fs = inr fs' →
     load_exec_from_file file_name fs' = inr e).
Proof.
  intros He. split; [|split].
  - exists e. by rewrite decode_encode.
  - intros file_name fs Hw. exists (<[file_name := encode e]> fs).
    pose proof (save_to_file_writable e file_name fs Hw) as Hsave.
    split; [done|]. split; [apply lookup_insert_eq|].
    split; [intros other Hne; by apply lookup_insert_ne|].
    by eapply load_after_save.
  - intros file_name fs fs'. by apply load_after_save.
Qed.

(** ** Construction *)

(** [VirtualMachine(...)] creates the native module and runs the setup on
    it: it returns when the setup returns and raises what the setup
    raises. *)
Lemma init_runs_setup exec device memory_cfg mod_ σ :
  let module := PObject "tvm.runtime.module.Module" (length (ffi_log σ)) in
  __init__ exec device memory_cfg mod_ σ =
  match _setup_device module device memory_cfg
          (mkState (heap σ) (ffi_log σ ++ [FFI_VirtualMachine exec mod_])) with
  | (Ok _, σ') => (Ok module, σ')
  | (Raise e, σ') => (Raise e, σ')
  end.
Proof.
  unfold __init__, bind, get_ffi_log, ffi, ret. simpl.
  by destruct (_setup_device _ _ _ _) as [[[]|e] σ'].
Qed.

(** ** Further properties of the setup *)

Lemma resolve_memory_cfg_Ok memory_cfg σ default_alloc_type cfg σ' :
  resolve_memory_cfg memory_cfg σ = (Ok (default_alloc_type, cfg), σ') →
  memory_cfg_spec (heap σ) memory_cfg default_alloc_type cfg.
Proof.
  unfold resolve_memory_cfg, bind, get_heap, ret, raise. simpl.
  destruct memory_cfg as [| |s| |l|]; try done.
  - intros [= <- <- _]. constructor.
  - case_bool_decide as Hin; [|done].
    case_bool_decide as Hnaive; intros [= <- <- _].
    + subst. constructor.
    + apply elem_of_cons in Hin as [->|Hin]; [done|].
      apply list_elem_of_singleton in Hin as ->. constructor.
  - destruct (heap σ !! l) as [[| |entries]|] eqn:Hl; try done.
    intros [= <- <- _]. by constructor.
Qed.

Lemma memory_cfg_spec_heap_after_inv h dev ds memory_cfg default_alloc_type
    cfg :
  device_spec h dev ds →
  memory_cfg_spec (heap_after h dev ds) memory_cfg default_alloc_type cfg →
  memory_cfg_spec h memory_cfg default_alloc_type cfg.
Proof.
  intros Hdev [| | |c entries Hc]; try by constructor.
  constructor. by eapply heap_after_lookup_inv.
Qed.

Lemma normalize_Ok ty σ n σ' :
  normalize ty σ = (Ok n, σ') → RPC_SESS_MASK ≠ 0.
Proof.
  unfold normalize, py_mod. destruct (Z.eqb_spec RPC_SESS_MASK 0); done.
Qed.

(** The loop gets through its list only if every element is a device, and
    through a non-empty list only if the mask is not zero. *)
Lemma init_args_loop_Ok default_alloc_type cfg items acc σ init_args σ' :
  init_args_loop default_alloc_type cfg items acc σ = (Ok init_args, σ') →
  (∃ ds, items = PDevice <$> ds) ∧ (items ≠ [] → RPC_SESS_MASK ≠ 0).
Proof.
  revert acc. induction items as [|c rest IH]; intros acc; simpl.
  - intros _. split; [by exists []|done].
  - unfold bind at 1, get_heap. simpl. destruct c as [| | |d| |]; try done.
    intros (n & σ1 & Hn & H)%bind_inv_Ok.
    pose proof (normalize_state _ _ _ _ Hn) as ->.
    apply IH in H as [[ds ->] _]. split; [by exists (d :: ds)|].
    intros _. by eapply normalize_Ok.
Qed.

Lemma iter_Ok l items σ σ' :
  iter (PRef l) σ = (Ok items, σ') →
  is_list_or_tuple (type_of (heap σ) (PRef l)) = true →
  heap σ !! l = Some (HList items) ∨ heap σ !! l = Some (HTuple items).
Proof.
  unfold iter, bind, get_heap, ret, raise. simpl.
  destruct (heap σ !! l) as [[| |]|]; try done; intros [= <- _] _; eauto.
Qed.

Lemma setup_device_Ok_ref self_module l memory_cfg σ u σ' :
  is_list_or_tuple (type_of (heap σ) (PRef l)) = true →
  _setup_device self_module (PRef l) memory_cfg σ = (Ok u, σ') →
  RPC_SESS_MASK ≠ 0 ∧ ∃ ds, device_spec (heap σ) (PRef l) ds.
Proof.
  intros Hty H. unfold _setup_device in H.
  cbn [bind get_heap] in H. rewrite Hty in H. cbn [bind ret] in H.
  apply bind_inv_Ok in H as (items & σ1 & Hiter & H).
  pose proof (iter_state _ _ _ _ Hiter) as ->.
  apply bind_inv_Ok in H as (found & σ2 & Hany & H).
  pose proof (any_is_cpu_state _ _ _ _ Hany) as ->.
  apply bind_inv_Ok in H as (u1 & σ3 & Happ & H).
  apply bind_inv_Ok in H as ([def cfg] & σ4 & Hcfg & H).
  pose proof (resolve_memory_cfg_state _ _ _ _ Hcfg) as ->.
  apply bind_inv_Ok in H as (items' & σ5 & Hiter' & H).
  pose proof (iter_state _ _ _ _ Hiter') as ->.
  apply bind_inv_Ok in H as (init_args & σ6 & Hloop & _).
  apply init_args_loop_Ok in Hloop as [[ds' ->] Hmask].
  destruct found.
  - assert (σ3 = σ) as -> by (by inversion Happ).
    rewrite Hiter in Hiter'. injection Hiter' as ->.
    assert (RPC_SESS_MASK ≠ 0) as Hm.
    { apply Hmask. intros Hnil. apply fmap_nil_inv in Hnil as ->.
      by simpl in Hany. }
    split; [done|]. exists ds'.
    apply iter_Ok in Hiter as [Hl|Hl]; [by apply spec_list| |done].
    apply spec_tuple; [done|].
    rewrite any_is_cpu_devices in Hany by done. by injection Hany as ->.
  - apply append_effect in Happ
      as [(e & [=] & _)|(l' & its & [= <-] & Hl & _ & ->)].
    assert (l < length (heap σ))%nat as Hlt by (by eapply lookup_lt_Some).
    apply iter_Ok in Hiter' as [Hl'|Hl']; simpl in *;
      rewrite ?list_lookup_insert_eq in * by done; [|discriminate|done].
    injection Hl' as Hits. symmetry in Hits.
    apply fmap_app_inv in Hits as (ds1 & ds2 & -> & Hcpu & ->).
    split; [|exists ds1; by apply spec_list].
    apply Hmask. destruct ds2; [done|]. by destruct ds1.
Qed.

Lemma setup_device_Ok_spec self_module dev memory_cfg σ u σ' :
  _setup_device self_module dev memory_cfg σ = (Ok u, σ') →
  RPC_SESS_MASK ≠ 0 ∧ ∃ ds, device_spec (heap σ) dev ds.
Proof.
  intros H.
  destruct (is_list_or_tuple (type_of (heap σ) dev)) eqn:Hseq.
  - destruct dev as [| | | |l|]; try done. by eapply setup_device_Ok_ref.
  - destruct (is_Device (type_of (heap σ) dev)) eqn:Hdev.
    + destruct dev as [| | |d|l|]; try done.
      * rewrite setup_device_single in H.
        apply setup_device_Ok_ref in H as [Hmask _].
        -- split; [done|]. exists [d]. constructor.
        -- simpl. by rewrite list_lookup_middle.
      * simpl in Hdev. by destruct (heap σ !! l) as [[]|].
    + by rewrite setup_device_bad_dev in H.
Qed.

Lemma any_is_cpu_before_non_device ds c rest σ :
  RPC_SESS_MASK ≠ 0 →
  has_cpu ds = false →
  (∀ d, c ≠ PDevice d) →
  any_is_cpu ((PDevice <$> ds) ++ c :: rest) σ =
  (Raise (AttributeError (type_of (heap σ) c) "device_type"), σ).
Proof.
  intros Hmask Hcpu Hc. induction ds as [|d ds IH]; simpl.
  - unfold bind, get_heap, raise. simpl. destruct c; try done. by edestruct Hc.
  - simpl in Hcpu. apply orb_false_iff in Hcpu as [Hd Hds].
    unfold bind at 1, get_heap. simpl.
    rewrite (bind_Ok _ _ _ _ _ (normalize_nonzero _ σ Hmask)).
    unfold is_cpu_class in Hd. rewrite Hd. by apply IH.
Qed.

Lemma any_is_cpu_short_circuit ds rest σ :
  RPC_SESS_MASK ≠ 0 →
  has_cpu ds = true →
  any_is_cpu ((PDevice <$> ds) ++ rest) σ = (Ok true, σ).
Proof.
  intros Hmask Hcpu. induction ds as [|d ds IH]; [done|]. simpl.
  unfold bind at 1, get_heap. simpl.
  rewrite (bind_Ok _ _ _ _ _ (normalize_nonzero _ σ Hmask)).
  simpl in Hcpu. unfold is_cpu_class in Hcpu.
  destruct (device_type d mod RPC_SESS_MASK =? device_type tvm_cpu);
    [done|by apply IH].
Qed.

Lemma init_args_loop_non_device default_alloc_type cfg ds c rest acc σ :
  RPC_SESS_MASK ≠ 0 →
  (∀ d, c ≠ PDevice d) →
  init_args_loop default_alloc_type cfg ((PDevice <$> ds) ++ c :: rest) acc σ =
  (Raise (AttributeError (type_of (heap σ) c) "device_type"), σ).
Proof.
  intros Hmask Hc. revert acc. induction ds as [|d ds IH]; intros acc; simpl.
  - unfold bind, get_heap, raise. simpl. destruct c; try done. by edestruct Hc.
  - unfold bind at 1, get_heap. simpl.
    rewrite (bind_Ok _ _ _ _ _ (normalize_nonzero _ σ Hmask)). by rewrite IH.
Qed.

Lemma iter_sequence l items σ :
  heap σ !! l = Some (HList items) ∨ heap σ !! l = Some (HTuple items) →
  is_list_or_tuple (type_of (heap σ) (PRef l)) = true ∧
  iter (PRef l) σ = (Ok items, σ).
Proof.
  intros [Hl|Hl]; (split; [simpl; by rewrite Hl|]);
    [by apply iter_HList|by apply iter_HTuple].
Qed.

(** X1. Whatever the arguments, the native initializer is called by a run
    that returns, once and as its last step, and by no run that raises. *)
Theorem setup_native_call_discipline self_module dev memory_cfg σ :
  match _setup_device self_module dev memory_cfg σ with
  | (Ok _, σ') =>
      ∃ init_args,
        ffi_log σ' =
          ffi_log σ ++ [FFI_VirtualMachineInit self_module init_args]
  | (Raise _, σ') => ffi_log σ' = ffi_log σ
  end.
Proof.
  destruct (_setup_device self_module dev memory_cfg σ) as [r σ'] eqn:H.
  apply setup_device_effect in H as [_ Hlog]. by destruct r.
Qed.

(** X2. The runs that return are exactly those with a non-zero mask, a
    [dev] that is a device, a list of devices or a tuple of devices holding
    one of CPU class, and a [memory_cfg] that is [None], ["naive"],
    ["pooled"] or a dictionary. *)
Theorem setup_returns_iff self_module dev memory_cfg σ :
  (∃ σ', _setup_device self_module dev memory_cfg σ = (Ok tt, σ')) ↔
  RPC_SESS_MASK ≠ 0 ∧
  ∃ ds default_alloc_type cfg,
    device_spec (heap σ) dev ds ∧
    memory_cfg_spec (heap σ) memory_cfg default_alloc_type cfg.
Proof.
  split.
  - intros [σ' H].
    destruct (setup_device_Ok_spec _ _ _ _ _ _ H) as [Hmask [ds Hdev]].
    split; [done|]. exists ds.
    rewrite (setup_device_spec _ _ _ _ ds) in H by done. unfold finish in H.
    destruct (resolve_memory_cfg _ _) as [[[def cfg]|e] σ1] eqn:Hcfg; [|done].
    exists def, cfg. split; [done|].
    apply resolve_memory_cfg_Ok in Hcfg.
    by eapply memory_cfg_spec_heap_after_inv.
  - intros (Hmask & ds & def & cfg & Hdev & Hcfg).
    destruct (setup_device_completes self_module _ _ _ _ _ _ Hmask Hdev Hcfg)
      as [Hrun _].
    by eauto.
Qed.

(** X3. A list or tuple whose first element that is not a device comes
    before any device of CPU class: the CPU check raises the
    [AttributeError] of reading [device_type] off that element, whatever
    [memory_cfg] is, and the state is left as it was. *)
Theorem non_device_element_raises
    self_module l memory_cfg σ items ds c rest :
  RPC_SESS_MASK ≠ 0 →
  heap σ !! l = Some (HList items) ∨ heap σ !! l = Some (HTuple items) →
  items = (PDevice <$> ds) ++ c :: rest →
  (∀ d, c ≠ PDevice d) →
  Forall (λ d, device_type d mod RPC_SESS_MASK ≠ device_type tvm_cpu) ds →
  _setup_device self_module (PRef l) memory_cfg σ =
  (Raise (AttributeError (type_of (heap σ) c) "device_type"), σ).
Proof.
  intros Hmask Hl -> Hc Hds%has_cpu_false.
  apply iter_sequence in Hl as [Hty Hiter].
  unfold _setup_device. mstep. simpl in Hty. rewrite Hty. mstep.
  mrun Hiter.
  by rewrite (bind_Raise _ _ _ _ _
                (any_is_cpu_before_non_device ds c rest σ Hmask Hds Hc)).
Qed.

(** X4. A list or tuple with a device of CPU class ahead of an element that
    is not a device: the CPU check stops at the CPU device and passes, so
    [memory_cfg] is looked at first.  With a [memory_cfg] the branch accepts
    the loop raises the [AttributeError] on that element; with a string
    other than ["naive"] and ["pooled"] the [AssertionError] comes instead.
    Either way the state is left as it was. *)
Theorem non_device_after_cpu self_module l memory_cfg σ items ds c rest :
  RPC_SESS_MASK ≠ 0 →
  heap σ !! l = Some (HList items) ∨ heap σ !! l = Some (HTuple items) →
  items = (PDevice <$> ds) ++ c :: rest →
  (∀ d, c ≠ PDevice d) →
  Exists (λ d, device_type d mod RPC_SESS_MASK = device_type tvm_cpu) ds →
  (∀ default_alloc_type cfg,
     memory_cfg_spec (heap σ) memory_cfg default_alloc_type cfg →
     _setup_device self_module (PRef l) memory_cfg σ =
       (Raise (AttributeError (type_of (heap σ) c) "device_type"), σ)) ∧
  (∀ s, s ∉ ["naive"; "pooled"] →
     _setup_device self_module (PRef l) (PStr s) σ =
       (Raise AssertionError, σ)).
Proof.
  intros Hmask Hl -> Hc Hds%has_cpu_true.
  apply iter_sequence in Hl as [Hty Hiter]. simpl in Hty.
  split.
  - intros def cfg Hcfg. unfold _setup_device. mstep. rewrite Hty. mstep.
    mrun Hiter.
    mrun (any_is_cpu_short_circuit ds (c :: rest) σ Hmask Hds).
    mrun (resolve_memory_cfg_spec _ _ _ σ Hcfg).
    destruct σ as [h log]. mrun Hiter.
    by rewrite (bind_Raise _ _ _ _ _
                  (init_args_loop_non_device def cfg ds c rest []
                     (mkState h log) Hmask Hc)).
  - intros s Hs. unfold _setup_device. mstep. rewrite Hty. mstep.
    mrun Hiter.
    mrun (any_is_cpu_short_circuit ds (c :: rest) σ Hmask Hds).
    destruct σ as [h log].
    by rewrite (bind_Raise _ _ _ _ _
                  (resolve_memory_cfg_bad_string s (mkState h log) Hs)).
Qed.

Lemma has_cpu_app ds1 ds2 :
  has_cpu (ds1 ++ ds2) = has_cpu ds1 || has_cpu ds2.
Proof. unfold has_cpu. apply existsb_app. Qed.

Lemma has_cpu_bound_devices ds :
  device_type tvm_cpu mod RPC_SESS_MASK = device_type tvm_cpu →
  has_cpu (bound_devices ds) = true.
Proof.
  intros Hcpu. unfold bound_devices. destruct (has_cpu ds) eqn:Hds; [done|].
  rewrite has_cpu_app, Hds. simpl. unfold is_cpu_class.
  rewrite Hcpu, Z.eqb_refl. done.
Qed.

Lemma heap_after_list_lookup h l ds :
  h !! l = Some (HList (PDevice <$> ds)) →
  heap_after h (PRef l) ds !! l = Some (HList (PDevice <$> bound_devices ds)).
Proof.
  intros Hl. unfold heap_after, bound_devices. destruct (has_cpu ds); [done|].
  rewrite list_lookup_insert_eq by (by eapply lookup_lt_Some).
  by rewrite fmap_app.
Qed.

(** X5. When the host CPU type is its own reduction modulo the mask, every
    run that returns has handed the native initializer a binding whose type
    is the host CPU type. *)
Theorem registry_has_cpu_binding
    self_module dev memory_cfg σ ds default_alloc_type cfg :
  RPC_SESS_MASK ≠ 0 →
  device_type tvm_cpu mod RPC_SESS_MASK = device_type tvm_cpu →
  device_spec (heap σ) dev ds →
  memory_cfg_spec (heap σ) memory_cfg default_alloc_type cfg →
  ∃ init_args h',
    _setup_device self_module dev memory_cfg σ =
      (Ok tt,
       mkState h'
         (ffi_log σ ++ [FFI_VirtualMachineInit self_module init_args])) ∧
    ∃ i b, registry init_args !! i = Some b ∧
           slot b = i ∧
           phys_type b = PInt (device_type tvm_cpu).
Proof.
  intros Hmask Hcpu Hdev Hcfg.
  destruct (setup_device_completes self_module _ _ _ _ _ _ Hmask Hdev Hcfg)
    as [Hrun Hreg].
  eexists _, _. split; [exact Hrun|]. rewrite Hreg.
  pose proof (has_cpu_bound_devices ds Hcpu) as Hex.
  apply has_cpu_true, Exists_exists in Hex as (d & Hd & Hty).
  apply list_elem_of_lookup in Hd as [i Hi].
  exists i, (binding_of (alloc_for default_alloc_type cfg) i d).
  rewrite list_lookup_imap, Hi. simpl. by rewrite Hty.
Qed.

(** X6. A list that one setup has completed on is left alone by the next:
    when the host CPU type is its own reduction modulo the mask, a second
    setup on the same list object finds the CPU device the first one may
    have appended, appends nothing and binds the devices the first one
    bound. *)
Theorem second_setup_appends_nothing
    module1 module2 l memory_cfg1 memory_cfg2 σ ds
    default1 cfg1 default2 cfg2 :
  RPC_SESS_MASK ≠ 0 →
  device_type tvm_cpu mod RPC_SESS_MASK = device_type tvm_cpu →
  heap σ !! l = Some (HList (PDevice <$> ds)) →
  memory_cfg_spec (heap σ) memory_cfg1 default1 cfg1 →
  memory_cfg_spec (heap σ) memory_cfg2 default2 cfg2 →
  ∃ σ1,
    _setup_device module1 (PRef l) memory_cfg1 σ = (Ok tt, σ1) ∧
    heap σ1 !! l = Some (HList (PDevice <$> bound_devices ds)) ∧
    _setup_device module2 (PRef l) memory_cfg2 σ1 =
      (Ok tt,
       mkState (heap σ1)
         (ffi_log σ1 ++
          [FFI_VirtualMachineInit module2
             (args_of (alloc_for default2 cfg2) (bound_devices ds))])).
Proof.
  intros Hmask Hcpu Hl Hcfg1 Hcfg2.
  pose proof (spec_list (heap σ) l ds Hl) as Hdev.
  destruct (setup_device_completes module1 _ _ _ _ _ _ Hmask Hdev Hcfg1)
    as [Hrun1 _].
  eexists. split; [exact Hrun1|]. cbn [heap ffi_log].
  pose proof (heap_after_list_lookup _ _ _ Hl) as Hl1.
  split; [done|].
  set (σ1 := mkState _ _).
  assert (device_spec (heap σ1) (PRef l) (bound_devices ds)) as Hdev1
    by (by apply spec_list).
  assert (memory_cfg_spec (heap σ1) memory_cfg2 default2 cfg2) as Hcfg2'
    by (by apply memory_cfg_spec_heap_after).
  destruct (setup_device_completes module2 _ _ _ _ _ _ Hmask Hdev1 Hcfg2')
    as [Hrun2 _].
  pose proof (has_cpu_bound_devices ds Hcpu) as Hbound.
  assert (bound_devices (bound_devices ds) = bound_devices ds) as Hidem
    by (unfold bound_devices at 1; by rewrite Hbound).
  assert (heap_after (heap σ1) (PRef l) (bound_devices ds) = heap σ1) as Hsame
    by (unfold heap_after; by rewrite Hbound).
  by rewrite Hrun2, Hidem, Hsame.
Qed.

(** X7. Construction makes the native constructor call first, whatever the
    arguments: a construction that raises has made that call and no other,
    and one that returns has made it and then the initializer call on the
    module it returns. *)
Theorem init_native_calls exec device memory_cfg mod_ σ :
  match __init__ exec device memory_cfg mod_ σ with
  | (Ok module, σ') =>
      ∃ init_args,
        ffi_log σ' =
          ffi_log σ ++
          [FFI_VirtualMachine exec mod_;
           FFI_VirtualMachineInit module init_args]
  | (Raise _, σ') => ffi_log σ' = ffi_log σ ++ [FFI_VirtualMachine exec mod_]
  end.
Proof.
  rewrite init_runs_setup. cbv zeta.
  destruct (_setup_device _ _ _ _) as [[[]|e] σ'] eqn:H;
    apply setup_device_effect in H as [_ Hlog]; simpl in Hlog.
  - destruct Hlog as [init_args ->]. exists init_args.
    by rewrite <- app_assoc.
  - done.
Qed.

(** X8. Construction on a device specification on which the CPU check
    completes, with a [memory_cfg] the branch accepts: it returns the
    module, the store is the one the CPU check leaves, and the native calls
    are the constructor and then the initializer with the bound devices'
    arguments. *)
Theorem init_completes
    exec device memory_cfg mod_ σ ds default_alloc_type cfg :
  RPC_SESS_MASK ≠ 0 →
  device_spec (heap σ) device ds →
  memory_cfg_spec (heap σ) memory_cfg default_alloc_type cfg →
  ∃ module,
    __init__ exec device memory_cfg mod_ σ =
      (Ok module,
       mkState (heap_after (heap σ) device ds)
         (ffi_log σ ++
          [FFI_VirtualMachine exec mod_;
           FFI_VirtualMachineInit module
             (args_of (alloc_for default_alloc_type cfg)
                      (bound_devices ds))])).
Proof.
  intros Hmask Hdev Hcfg. eexists. rewrite init_runs_setup. cbv zeta.
  set (σ0 := mkState _ _).
  destruct (setup_device_completes
              (PObject "tvm.runtime.module.Module" (length (ffi_log σ)))
              device memory_cfg σ0 ds default_alloc_type cfg)
    as [Hrun _]; [done..|].
  rewrite Hrun. simpl. by rewrite <- app_assoc.
Qed.

(** X9. An empty list: the CPU device is appended to it and is the one
    device bound, at slot 0. *)
Theorem setup_empty_list
    self_module l memory_cfg σ default_alloc_type cfg :
  RPC_SESS_MASK ≠ 0 →
  heap σ !! l = Some (HList []) →
  memory_cfg_spec (heap σ) memory_cfg default_alloc_type cfg →
  let init_args :=
    [PInt (device_type tvm_cpu mod RPC_SESS_MASK);
     PInt (device_id tvm_cpu);
     alloc_for default_alloc_type cfg tvm_cpu] in
  _setup_device self_module (PRef l) memory_cfg σ =
    (Ok tt,
     mkState (<[l := HList [PDevice tvm_cpu]]> (heap σ))
       (ffi_log σ ++ [FFI_VirtualMachineInit self_module init_args])) ∧
  registry init_args =
    [mkBinding 0 (PInt (device_type tvm_cpu mod RPC_SESS_MASK))
       (PInt (device_id tvm_cpu)) (alloc_for default_alloc_type cfg tvm_cpu)].
Proof.
  intros Hmask Hl Hcfg init_args. split; [|done].
  pose proof (spec_list (heap σ) l [] Hl) as Hdev.
  by destruct (setup_device_completes self_module _ _ _ _ _ _ Hmask Hdev Hcfg)
    as [-> _].
Qed.

(** X10. With a positive mask, every device type handed to the native
    initializer lies in the range from 0 up to, not including, the mask,
    also for a device whose own type is negative or beyond the mask. *)
Theorem recorded_types_in_range
    self_module dev memory_cfg σ ds default_alloc_type cfg :
  0 < RPC_SESS_MASK →
  device_spec (heap σ) dev ds →
  memory_cfg_spec (heap σ) memory_cfg default_alloc_type cfg →
  ∃ init_args h',
    _setup_device self_module dev memory_cfg σ =
      (Ok tt,
       mkState h'
         (ffi_log σ ++ [FFI_VirtualMachineInit self_module init_args])) ∧
    Forall (λ b, ∃ ty, phys_type b = PInt ty ∧ 0 ≤ ty < RPC_SESS_MASK)
           (registry init_args).
Proof.
  intros Hmask Hdev Hcfg.
  assert (RPC_SESS_MASK ≠ 0) as Hne by lia.
  destruct (setup_device_completes self_module _ _ _ _ _ _ Hne Hdev Hcfg)
    as [Hrun Hreg].
  eexists _, _. split; [exact Hrun|]. rewrite Hreg.
  apply Forall_lookup. intros i b Hb.
  rewrite list_lookup_imap in Hb.
  destruct (bound_devices ds !! i) as [d|]; [|done]. injection Hb as <-.
  eexists. split; [done|]. by apply Z.mod_pos_bound.
Qed.

Lemma any_is_cpu_cons_device d rest σ :
  RPC_SESS_MASK ≠ 0 →
  any_is_cpu (PDevice d :: rest) σ =
  if is_cpu_class d then (Ok true, σ) else any_is_cpu rest σ.
Proof.
  intros Hmask. simpl. unfold bind at 1, get_heap. simpl.
  rewrite (bind_Ok _ _ _ _ _ (normalize_nonzero _ σ Hmask)).
  unfold is_cpu_class.
  by destruct (device_type d mod RPC_SESS_MASK =? device_type tvm_cpu).
Qed.

Lemma any_is_cpu_cases items σ :
  RPC_SESS_MASK ≠ 0 →
  any_is_cpu items σ = (Ok true, σ) ∨
  (any_is_cpu items σ = (Ok false, σ) ∧
   ∃ ds, items = PDevice <$> ds ∧ has_cpu ds = false) ∨
  (∃ e, any_is_cpu items σ = (Raise e, σ)).
Proof.
  intros Hmask. induction items as [|c rest IH].
  - right. left. split; [done|]. by exists [].
  - destruct c as [| | |d| |]; try (right; right; by eexists).
    rewrite any_is_cpu_cons_device by done.
    destruct (is_cpu_class d) eqn:Hd; [by left|].
    destruct IH as [IH|[[IH (ds & -> & Hds)]|IH]]; [by left| |by right; right].
    right. left. split; [done|]. exists (d :: ds). split; [done|].
    simpl. by rewrite Hd.
Qed.

Lemma setup_device_found_heap self_module l memory_cfg σ items :
  is_list_or_tuple (type_of (heap σ) (PRef l)) = true →
  iter (PRef l) σ = (Ok items, σ) →
  any_is_cpu items σ = (Ok true, σ) →
  heap (_setup_device self_module (PRef l) memory_cfg σ).2 = heap σ.
Proof.
  intros Hty Hiter Hany. unfold _setup_device. mstep.
  simpl in Hty. rewrite Hty. mstep. mrun Hiter. mrun Hany.
  destruct (resolve_memory_cfg memory_cfg σ) as [[[def cfg]|e] σ1] eqn:Hcfg;
    pose proof (resolve_memory_cfg_state _ _ _ _ Hcfg) as ->;
    [|by rewrite (bind_Raise _ _ _ _ _ Hcfg)].
  destruct σ as [h log]. mrun Hcfg. mrun Hiter.
  destruct (init_args_loop def cfg items [] (mkState h log))
    as [[init_args|e] σ1] eqn:Hloop;
    pose proof (init_args_loop_state _ _ _ _ _ _ _ Hloop) as ->;
    [|by rewrite (bind_Raise _ _ _ _ _ Hloop)].
  by mrun Hloop.
Qed.

(** X11. A caller's list is appended to only if it holds devices alone and
    none of CPU class: a list with an element that is not a device, or with
    a device of CPU class, comes out of the run as it went in, whatever
    [memory_cfg] is and whether the run returns or raises. *)
Theorem caller_list_untouched self_module l memory_cfg σ items :
  RPC_SESS_MASK ≠ 0 →
  heap σ !! l = Some (HList items) →
  ¬ (∃ ds,
       items = PDevice <$> ds ∧
       Forall (λ d, device_type d mod RPC_SESS_MASK ≠ device_type tvm_cpu)
              ds) →
  heap (_setup_device self_module (PRef l) memory_cfg σ).2 = heap σ.
Proof.
  intros Hmask Hl Hnot.
  assert (is_list_or_tuple (type_of (heap σ) (PRef l)) = true) as Hty
    by (simpl; by rewrite Hl).
  pose proof (iter_HList _ _ _ Hl) as Hiter.
  destruct (any_is_cpu_cases items σ Hmask)
    as [Hany|[[_ (ds & -> & Hds)]|[e Hany]]].
  - by eapply setup_device_found_heap.
  - destruct Hnot. exists ds. split; [done|]. by apply has_cpu_false.
  - unfold _setup_device. mstep. simpl in Hty. rewrite Hty. mstep.
    mrun Hiter. by rewrite (bind_Raise _ _ _ _ _ Hany).
Qed.

End Relax.

(** ** The statements at concrete inputs *)

Example setup_list_gpu_naive :
  _setup_device 128 host_cpu vm_module (PRef 0) (PStr "naive") example_state =
  (Ok tt,
   mkState
     [HList [PDevice gpu0; PDevice host_cpu];
      HTuple [PDevice gpu0];
      HDict [(PDevice gpu0, PStr "bogus")];
      HList [PInt 42];
      HList [PDevice gpu0; PDevice remote_cpu]]
     [FFI_VirtualMachineInit vm_module
        [PInt 2; PInt 0; PInt 1; PInt 1; PInt 0; PInt 1]]).
Proof. reflexivity. Qed.

Example setup_single_gpu_dict :
  _setup_device 128 host_cpu vm_module (PDevice gpu0) (PRef 2) example_state =
  (Ok tt,
   mkState
     (heap example_state ++ [HList [PDevice gpu0; PDevice host_cpu]])
     [FFI_VirtualMachineInit vm_module
        [PInt 2; PInt 0; PStr "bogus"; PInt 1; PInt 0; PInt 2]]).
Proof. reflexivity. Qed.

Example setup_remote_cpu :
  _setup_device 128 host_cpu vm_module (PRef 4) PNone example_state =
  (Ok tt,
   mkState (heap example_state)
     [FFI_VirtualMachineInit vm_module
        [PInt 2; PInt 0; PInt 2; PInt 1; PInt 0; PInt 2]]).
Proof. reflexivity. Qed.

Lemma C1_witness :
  completes 128 host_cpu vm_module (PRef 0) (PStr "naive") example_state
    [gpu0] (λ _, PInt NAIVE_ALLOCATOR).
Proof.
  destruct (C1_allocator_strategy_resolution 128 host_cpu vm_module (PRef 0)
              (PStr "naive") example_state [gpu0]) as (_ & H & _).
  - lia.
  - apply spec_list. reflexivity.
  - apply H. reflexivity.
Defined.

Example cpu_auto_append_list_gpu :
  ∃ init_args h',
    _setup_device 128 host_cpu vm_module (PRef 0) PNone example_state =
      (Ok tt, mkState h' [FFI_VirtualMachineInit vm_module init_args]) ∧
    registry init_args =
      [mkBinding 0 (PInt 2) (PInt 0) (PInt POOLED_ALLOCATOR);
       mkBinding 1 (PInt 1) (PInt 0) (PInt POOLED_ALLOCATOR)].
Proof.
  destruct (cpu_auto_append 128 host_cpu vm_module (PRef 0) PNone
              example_state [gpu0] (PInt POOLED_ALLOCATOR) [])
    as (init_args & h' & Hrun & Hnone & _).
  - lia.
  - apply spec_list. reflexivity.
  - apply cfg_none.
  - exists init_args, h'. split; [exact Hrun|].
    apply Hnone. repeat constructor. vm_compute. discriminate.
Qed.

(** C2, at a tuple.  The tuple [(gpu0,)] passes the sequence check and none
    of its devices is of CPU class, yet the run does not append the CPU
    device: it raises, and no binding is made.  The same devices in a list
    get the CPU device appended. *)
Theorem C2_tuple_cpu_not_appended :
  is_list_or_tuple (type_of (heap example_state) (PRef 1)) = true ∧
  heap example_state !! 1%nat = Some (HTuple (PDevice <$> [gpu0])) ∧
  has_cpu 128 host_cpu [gpu0] = false ∧
  _setup_device 128 host_cpu vm_module (PRef 1) PNone example_state =
    (Raise (AttributeError cls_tuple "append"), example_state) ∧
  ∃ h',
    _setup_device 128 host_cpu vm_module (PRef 0) PNone example_state =
      (Ok tt,
       mkState h'
         [FFI_VirtualMachineInit vm_module
            (args_of 128 (λ _, PInt POOLED_ALLOCATOR) [gpu0; host_cpu])]).
Proof.
  repeat split; try reflexivity. eexists. reflexivity.
Qed.

Lemma C3_witness :
  ∃ init_args,
    _setup_device 128 host_cpu vm_module (PRef 4) PNone example_state =
      (Ok tt,
       mkState (heap example_state)
         [FFI_VirtualMachineInit vm_module init_args]) ∧
    init_args !! 3%nat = Some (PInt 1) ∧
    length (registry init_args) = 2%nat.
Proof.
  destruct (C3_device_type_normalization 128 host_cpu vm_module (PRef 4)
              PNone example_state [gpu0; remote_cpu]
              (PInt POOLED_ALLOCATOR) [])
    as (init_args & h' & Hrun & Htypes & Hremote).
  - lia.
  - apply spec_list. reflexivity.
  - apply cfg_none.
  - destruct (Hremote remote_cpu 1) as (Hbound & Hlen & Hheap).
    + apply list_elem_of_In. right. left. reflexivity.
    + simpl. lia.
    + reflexivity.
    + exists init_args. rewrite <- (Hheap 4%nat eq_refl).
      split; [exact Hrun|]. split; [|exact Hlen].
      destruct (Htypes 1%nat remote_cpu) as [H _]; [|exact H].
      rewrite Hbound. reflexivity.
Defined.

Lemma C4_witness :
  ∃ init_args h',
    _setup_device 128 host_cpu vm_module (PRef 0) (PRef 2) example_state =
      (Ok tt, mkState h' [FFI_VirtualMachineInit vm_module init_args]) ∧
    registry init_args !! 1%nat =
      Some (mkBinding 1 (PInt 1) (PInt 0) (PInt POOLED_ALLOCATOR)).
Proof.
  destruct (C4_positional_slot_assignment 128 host_cpu vm_module (PRef 0)
              (PRef 2) example_state [gpu0] (PInt POOLED_ALLOCATOR)
              [(PDevice gpu0, PStr "bogus")])
    as (init_args & h' & Hrun & _ & _ & Hslots).
  - lia.
  - apply spec_list. reflexivity.
  - apply cfg_dict. reflexivity.
  - exists init_args, h'. split; [exact Hrun|].
    destruct (Hslots 1%nat host_cpu) as [H _]; [reflexivity|exact H].
Defined.

Lemma C5_witness :
  _setup_device 128 host_cpu vm_module (PRef 4) (PStr "fast") example_state =
  (Raise AssertionError, example_state).
Proof.
  destruct (C5_invalid_strategy_string 128 host_cpu vm_module (PRef 4) "fast"
              example_state) as [_ H].
  - vm_compute. intros H. inversion H as [|? ? ? H1]; subst.
    inversion H1 as [|? ? ? H2]; subst. inversion H2.
  - apply (H [gpu0; remote_cpu]); [lia|]. apply spec_list. reflexivity.
Defined.

Lemma C6_witness :
  _setup_device 128 host_cpu vm_module (PInt 7) PNone example_state =
    (Raise (TypeError dev_expected_msg), example_state) ∧
  _setup_device 128 host_cpu vm_module (PRef 4) (PInt 7) example_state =
    (Raise (TypeError (memory_cfg_expected_msg cls_int)), example_state).
Proof.
  split.
  - apply (C6_setup_type_validation 128 host_cpu vm_module (PInt 7) PNone
             example_state); reflexivity.
  - apply (C6_setup_type_validation 128 host_cpu vm_module (PRef 4) (PInt 7)
             example_state) with (ds := [gpu0; remote_cpu]).
    + lia.
    + apply spec_list. reflexivity.
    + repeat split; discriminate.
Defined.

(** The list [[42]] is neither a device nor a list or tuple of devices, and
    the run on it raises the [AttributeError] of reading [device_type] off
    an [int], not the [TypeError] on [dev]. *)
Lemma C6_counterexample :
  (∀ d, PRef 3 ≠ PDevice d) ∧
  (∀ ds, heap example_state !! 3%nat ≠ Some (HList (PDevice <$> ds)) ∧
         heap example_state !! 3%nat ≠ Some (HTuple (PDevice <$> ds))) ∧
  _setup_device 128 host_cpu vm_module (PRef 3) PNone example_state =
    (Raise (AttributeError cls_int "device_type"), example_state) ∧
  _setup_device 128 host_cpu vm_module (PRef 3) PNone example_state ≠
    (Raise (TypeError dev_expected_msg), example_state).
Proof.
  split; [done|]. split; [|split; [reflexivity|discriminate]].
  intros ds. split; [|discriminate].
  destruct ds as [|d ds]; simpl; congruence.
Qed.

Lemma C7_witness :
  decode 1 example_constant_refs (λ _, [])
    (encode 1 example_executable) = inr example_executable ∧
  ∃ fs',
    save_to_file 1 (λ _, true) example_executable "main.vm" ∅ = inr fs' ∧
    fs' !! "main.vm" = Some (encode 1 example_executable) ∧
    load_exec_from_file 1 example_constant_refs (λ _, []) "main.vm" fs' =
      inr example_executable.
Proof.
  destruct (C7_codec_round_trip 1 example_constant_refs (λ _, [])
              (λ _, true) example_executable)
    as ((e' & Hdec & Hi & Hc & Hf) & Hsave & _).
  - vm_compute. reflexivity.
  - split.
    + rewrite Hdec. f_equal.
      destruct e' as [instrs consts funcs]. simpl in Hi, Hc, Hf.
      rewrite Hi, Hc, Hf. reflexivity.
    + destruct (Hsave "main.vm" ∅) as (fs' & Hs & Hfile & _ & Hload);
        [reflexivity|].
      exists fs'. split; [exact Hs|]. split; [exact Hfile|exact Hload].
Defined.

Lemma C8_witness :
  ∃ r log',
    _setup_device 128 host_cpu vm_module (PRef 0) (PInt 7) example_state =
      (r,
       mkState
         (<[0%nat := HList [PDevice gpu0; PDevice host_cpu]]>
            (heap example_state)) log').
Proof.
  destruct (C8_caller_list_mutated 128 host_cpu vm_module 0%nat (PInt 7)
              example_state [gpu0]) as [H _].
  - lia.
  - reflexivity.
  - repeat constructor. vm_compute. discriminate.
  - exact H.
Defined.

Lemma C9_witness :
  _setup_device 128 host_cpu vm_module (PRef 1) (PStr "naive") example_state =
  (Raise (AttributeError cls_tuple "append"), example_state).
Proof.
  destruct (C9_tuple_without_cpu 128 host_cpu vm_module 1%nat (PStr "naive")
              example_state [gpu0]) as [_ H].
  - lia.
  - reflexivity.
  - repeat constructor. vm_compute. discriminate.
  - exact H.
Defined.

Lemma C10_witness :
  ∃ init_args h',
    _setup_device 128 host_cpu vm_module (PRef 0) (PRef 2) example_state =
      (Ok tt, mkState h' [FFI_VirtualMachineInit vm_module init_args]) ∧
    init_args !! 2%nat = Some (PStr "bogus").
Proof.
  destruct (C10_dict_values_unchecked 128 host_cpu vm_module (PRef 0) 2%nat
              example_state [gpu0] [(PDevice gpu0, PStr "bogus")])
    as [(init_args & h' & Hrun & Hvalues) _].
  - lia.
  - apply spec_list. reflexivity.
  - reflexivity.
  - repeat constructor. apply not_elem_of_nil.
  - exists init_args, h'. split; [exact Hrun|].
    destruct (Hvalues 0%nat gpu0 (PStr "bogus")) as [H _]; [reflexivity| |exact H].
    apply list_elem_of_In. left. reflexivity.
Defined.

(** ** The further properties at concrete inputs *)

Lemma non_device_element_raises_witness :
  _setup_device 128 host_cpu vm_module (PRef 3) (PStr "fast") example_state =
  (Raise (AttributeError cls_int "device_type"), example_state).
Proof.
  apply (non_device_element_raises 128 host_cpu vm_module 3%nat (PStr "fast")
           example_state [PInt 42] [] (PInt 42) []).
  - lia.
  - left. reflexivity.
  - reflexivity.
  - discriminate.
  - constructor.
Defined.

Lemma non_device_after_cpu_witness :
  _setup_device 128 host_cpu vm_module (PRef 0) PNone example_state2 =
    (Raise (AttributeError cls_str "device_type"), example_state2) ∧
  _setup_device 128 host_cpu vm_module (PRef 0) (PStr "fast") example_state2 =
    (Raise AssertionError, example_state2).
Proof.
  destruct (non_device_after_cpu 128 host_cpu vm_module 0%nat PNone
              example_state2 [PDevice host_cpu; PStr "gpu"] [host_cpu]
              (PStr "gpu") []) as [Hloop _].
  - lia.
  - left. reflexivity.
  - reflexivity.
  - discriminate.
  - constructor. reflexivity.
  - destruct (non_device_after_cpu 128 host_cpu vm_module 0%nat (PStr "fast")
                example_state2 [PDevice host_cpu; PStr "gpu"] [host_cpu]
                (PStr "gpu") []) as [_ Hassert].
    + lia.
    + left. reflexivity.
    + reflexivity.
    + discriminate.
    + constructor. reflexivity.
    + split.
      * apply (Hloop (PInt POOLED_ALLOCATOR) []). apply cfg_none.
      * apply Hassert. vm_compute. intros H.
        inversion H as [|? ? ? H1]; subst.
        inversion H1 as [|? ? ? H2]; subst. inversion H2.
Defined.

Lemma registry_has_cpu_binding_witness :
  ∃ init_args h',
    _setup_device 128 host_cpu vm_module (PRef 4) PNone example_state =
      (Ok tt, mkState h' [FFI_VirtualMachineInit vm_module init_args]) ∧
    ∃ i b, registry init_args !! i = Some b ∧ slot b = i ∧
           phys_type b = PInt 1.
Proof.
  apply (registry_has_cpu_binding 128 host_cpu vm_module (PRef 4) PNone
           example_state [gpu0; remote_cpu] (PInt POOLED_ALLOCATOR) []).
  - lia.
  - reflexivity.
  - apply spec_list. reflexivity.
  - apply cfg_none.
Defined.

Lemma second_setup_appends_nothing_witness :
  ∃ σ1,
    _setup_device 128 host_cpu vm_module (PRef 0) PNone example_state =
      (Ok tt, σ1) ∧
    heap σ1 !! 0%nat = Some (HList [PDevice gpu0; PDevice host_cpu]) ∧
    _setup_device 128 host_cpu vm_module (PRef 0) (PStr "naive") σ1 =
      (Ok tt,
       mkState (heap σ1)
         (ffi_log σ1 ++
          [FFI_VirtualMachineInit vm_module
             [PInt 2; PInt 0; PInt 1; PInt 1; PInt 0; PInt 1]])).
Proof.
  apply (second_setup_appends_nothing 128 host_cpu vm_module vm_module 0%nat
           PNone (PStr "naive") example_state [gpu0]
           (PInt POOLED_ALLOCATOR) [] (PInt NAIVE_ALLOCATOR) []).
  - lia.
  - reflexivity.
  - reflexivity.
  - apply cfg_none.
  - apply cfg_naive.
Defined.

Lemma init_completes_witness :
  ∃ module,
    __init__ 128 host_cpu (PObject "tvm.relax.vm.Executable" 0)
      (PDevice gpu0) PNone PNone example_state =
    (Ok module,
     mkState (heap example_state ++ [HList [PDevice gpu0; PDevice host_cpu]])
       [FFI_VirtualMachine (PObject "tvm.relax.vm.Executable" 0) PNone;
        FFI_VirtualMachineInit module
          [PInt 2; PInt 0; PInt 2; PInt 1; PInt 0; PInt 2]]).
Proof.
  apply (init_completes 128 host_cpu (PObject "tvm.relax.vm.Executable" 0)
           (PDevice gpu0) PNone PNone example_state [gpu0]
           (PInt POOLED_ALLOCATOR) []).
  - lia.
  - apply spec_single.
  - apply cfg_none.
Defined.

Lemma setup_empty_list_witness :
  _setup_device 128 host_cpu vm_module (PRef 1) PNone example_state2 =
  (Ok tt,
   mkState [HList [PDevice host_cpu; PStr "gpu"]; HList [PDevice host_cpu]]
     [FFI_VirtualMachineInit vm_module [PInt 1; PInt 0; PInt 2]]).
Proof.
  destruct (setup_empty_list 128 host_cpu vm_module 1%nat PNone
              example_state2 (PInt POOLED_ALLOCATOR) []) as [H _].
  - lia.
  - reflexivity.
  - apply cfg_none.
  - exact H.
Defined.

Lemma recorded_types_in_range_witness :
  ∃ init_args h',
    _setup_device 128 host_cpu vm_module (PRef 4) PNone example_state =
      (Ok tt, mkState h' [FFI_VirtualMachineInit vm_module init_args]) ∧
    Forall (λ b, ∃ ty, phys_type b = PInt ty ∧ 0 ≤ ty < 128)
           (registry init_args).
Proof.
  apply (recorded_types_in_range 128 host_cpu vm_module (PRef 4) PNone
           example_state [gpu0; remote_cpu] (PInt POOLED_ALLOCATOR) []).
  - lia.
  - apply spec_list. reflexivity.
  - apply cfg_none.
Defined.

Lemma caller_list_untouched_witness :
  heap (_setup_device 128 host_cpu vm_module (PRef 4) (PInt 7)
          example_state).2 = heap example_state.
Proof.
  apply (caller_list_untouched 128 host_cpu vm_module 4%nat (PInt 7)
           example_state [PDevice gpu0; PDevice remote_cpu]).
  - lia.
  - reflexivity.
  - intros (ds & Hitems & Hds).
    destruct ds as [|d1 [|d2 ds]]; try discriminate.
    injection Hitems as <- <- _.
    inversion Hds as [|? ? _ Hrest]; subst.
    inversion Hrest as [|? ? Hremote _]; subst.
    apply Hremote. reflexivity.
Defined.
